(** * The user-book association service of NextChapterAi

    A shallow embedding of [src/api/database/services/usersBooks.service.ts]
    together with the Sequelize model it drives
    ([UsersBooks.init], validators and foreign keys included), followed by
    the properties of the five service operations.

    Modelling conventions
    - JavaScript values that flow through the service untyped (the cached
      [bookDetails] column, the provider's answer, the plain objects built
      with the spread operator) are values of [JSON]; objects keep their
      keys in insertion order, as JavaScript does.
    - [number] is [Z] (the column is [DataTypes.INTEGER]); a [Date] is its
      millisecond time stamp, so [>] on dates is [>] on [Z].
    - Every [await] on a collaborator may reject.  Rejections of the store
      are decided by an oracle of the environment, rejections of the
      metadata provider by the provider itself.  Store mutations that
      happened before a rejection stay (the service opens no transaction).
    - Each call on a collaborator is appended to a trace, so that "no
      provider fetch" and "no persistence access" are statements about
      data. *)

From stdpp Require Import gmap strings list fin_maps pretty.
From Stdlib Require Import ZArith Lia.

Local Open Scope string_scope.
Local Open Scope Z_scope.
Local Open Scope list_scope.
Set Warnings "-register-all".

(** ** JavaScript values *)

Inductive JSON : Type :=
| JNull
| JBool (b : bool)
| JNum (n : Z)
| JStr (s : string)
| JArr (l : list JSON)
| JObj (o : list (string * JSON)).

Abbreviation Obj := (list (string * JSON)).

(** [v ? a : b], [!v], [if (v)]: JavaScript truthiness. *)
Definition truthy (v : JSON) : bool :=
  match v with
  | JNull => false
  | JBool b => b
  | JNum n => negb (n =? 0)
  | JStr s => negb (String.eqb s EmptyString)
  | JArr _ | JObj _ => true
  end.

(** [undefined] is [None]. *)
Definition truthy_opt (v : option JSON) : bool :=
  match v with Some v => truthy v | None => false end.

Fixpoint obj_get (k : string) (o : Obj) : option JSON :=
  match o with
  | [] => None
  | (k', v) :: o' => if String.eqb k k' then Some v else obj_get k o'
  end.

(** Assignment of one key: an existing key keeps its position. *)
Fixpoint obj_set (k : string) (v : JSON) (o : Obj) : Obj :=
  match o with
  | [] => [(k, v)]
  | (k', v') :: o' =>
      if String.eqb k k' then (k, v) :: o' else (k', v') :: obj_set k v o'
  end.

(** [{ ...base, ...extra }] *)
Definition obj_spread (base extra : Obj) : Obj :=
  fold_left (fun acc kv => obj_set kv.1 kv.2 acc) extra base.

(** [v.k] on a value that is neither [null] nor [undefined], and [v?.k]
    on any value: primitives and arrays have no such own property. *)
Definition prop (k : string) (v : JSON) : option JSON :=
  match v with
  | JObj o => obj_get k o
  | _ => None
  end.

(** What a [throw] carries: an instance of [Error] (with the name of its
    class and its message) or any other value. *)
Inductive Thrown : Type :=
| ThrownError (name msg : string)
| ThrownOther (v : JSON).

(** [new Error(msg)] *)
Definition newError (msg : string) : Thrown := ThrownError "Error" msg.

(** ** The tables *)

(** Modelled from the spec: the Book model ([models/Book.model.ts]) is not
    part of the sources; a Book has a numeric id, a [quickLink] and the
    cached, nullable and possibly malformed [bookDetails] blob. *)
Record Book : Type := mkBook {
  book_id : Z;
  quickLink : string;
  bookDetails : JSON
}.

(** A row of [users_books]. *)
Record UsersBooks : Type := mkUsersBooks {
  id : Z;
  userId : Z;
  bookId : Z;
  userRating : option Z;
  dateStarted : option Z;
  dateFinished : option Z;
  userNotes : option string;
  import : bool
}.

(** The store.  [books] is keyed by its primary key; [usersBooks] keeps
    the rows in the order the queries return them; [nextId] is the
    auto-increment counter of [users_books.id]. *)
Record DB : Type := mkDB {
  users : gset Z;
  books : gmap Z Book;
  usersBooks : list UsersBooks;
  nextId : Z
}.

(** The calls the service makes on the store. *)
Inductive StoreOp : Type :=
| OpBookFindByPk
| OpBookUpdate
| OpFindAll
| OpFindOne
| OpCreate
| OpUpdate
| OpDestroy.

Inductive Event : Type :=
| EvStore (op : StoreOp)
| EvFetch (link : string).

Record World : Type := mkWorld {
  db : DB;
  trace : list Event
}.

(** The collaborators: the metadata provider
    ([bookModule.getFromBookQuickLink], not part of the sources, hence a
    parameter) and the failures of the store, which may depend on what
    happened before. *)
Record Env : Type := mkEnv {
  provider : string -> Thrown + Obj;
  fault : list Event -> StoreOp -> option Thrown
}.

(** ** State and exceptions *)

Inductive Outcome (A : Type) : Type :=
| Ok (a : A)
| Err (t : Thrown).
Arguments Ok {A} a.
Arguments Err {A} t.

Definition M (A : Type) : Type := World -> Outcome A * World.

Definition ret {A} (a : A) : M A := fun w => (Ok a, w).

Definition bind {A B} (m : M A) (k : A -> M B) : M B :=
  fun w =>
    match m w with
    | (Ok a, w') => k a w'
    | (Err t, w') => (Err t, w')
    end.

Definition throw {A} (t : Thrown) : M A := fun w => (Err t, w).

(** [try { m } catch (error) { h error }] *)
Definition try_catch {A} (m : M A) (h : Thrown -> M A) : M A :=
  fun w =>
    match m w with
    | (Ok a, w') => (Ok a, w')
    | (Err t, w') => h t w'
    end.

Declare Scope js_scope.
Delimit Scope js_scope with js.
Notation "x <- m ;; k" := (bind m (fun x => k))
  (at level 100, m at next level, k at level 200, right associativity) : js_scope.
Notation "m ;; k" := (bind m (fun _ => k))
  (at level 100, k at level 200, right associativity) : js_scope.
Local Open Scope js_scope.

Definition log (e : Event) : M unit :=
  fun w => (Ok tt, mkWorld (db w) (trace w ++ [e])).

Definition getDB : M DB := fun w => (Ok (db w), w).

Definition putDB (d : DB) : M unit := fun w => (Ok tt, mkWorld d (trace w)).

(** ** The persistence layer (Sequelize) *)

(** A [where] object: the listed columns must be equal. *)
Record Where : Type := mkWhere {
  where_id : option Z;
  where_userId : option Z;
  where_bookId : option Z
}.

Definition col_matches (c : option Z) (v : Z) : bool :=
  match c with Some x => x =? v | None => true end.

Definition matches (wh : Where) (r : UsersBooks) : bool :=
  col_matches (where_id wh) (id r)
  && col_matches (where_userId wh) (userId r)
  && col_matches (where_bookId wh) (bookId r).

(** A row loaded with [include: [{ model: Book, as: 'book' }]]; the
    association is [null] when no book has the row's [bookId]. *)
Record UsersBooksType : Type := mkUsersBooksType {
  row : UsersBooks;
  book : option Book
}.

Definition include_book (d : DB) (r : UsersBooks) : UsersBooksType :=
  mkUsersBooksType r (books d !! bookId r).

(** The attribute values handed to [create] and [update]. *)
Record Values : Type := mkValues {
  v_userRating : option Z;
  v_dateStarted : option Z;
  v_dateFinished : option Z;
  v_userNotes : option string
}.

(** The validators declared in [UsersBooks.init]: [min: 1], [max: 10] on
    [userRating] and [len: [1, 1000]] on [userNotes]; a [null] value of a
    nullable column is not validated. *)
Definition validationError (validator column : string) : Thrown :=
  ThrownError "SequelizeValidationError"
    ("Validation error: Validation " +:+ validator +:+ " on " +:+ column +:+ " failed").

Definition validate_userRating (v : option Z) : option Thrown :=
  match v with
  | None => None
  | Some n =>
      if n <? 1 then Some (validationError "min" "userRating")
      else if 10 <? n then Some (validationError "max" "userRating")
      else None
  end.

Definition validate_userNotes (v : option string) : option Thrown :=
  match v with
  | None => None
  | Some s =>
      let n := Z.of_nat (String.length s) in
      if (1 <=? n) && (n <=? 1000) then None
      else Some (validationError "len" "userNotes")
  end.

(** The line feed and the double quote, as one-character strings. *)
Definition line_feed : string := String (Ascii.ascii_of_nat 10) EmptyString.
Definition double_quote : string := String (Ascii.ascii_of_nat 34) EmptyString.

Definition message_of (t : Thrown) : string :=
  match t with
  | ThrownError _ message => message
  | ThrownOther _ => EmptyString
  end.

(** Sequelize runs every validator and throws one [ValidationError] for
    all that failed; its message is the messages of the items, in the
    order of the attributes, joined by a comma and a line feed. *)
Definition all_failures (a b : option Thrown) : option Thrown :=
  match a, b with
  | Some ta, Some tb =>
      Some (ThrownError "SequelizeValidationError"
              (message_of ta +:+ "," +:+ line_feed +:+ message_of tb))
  | Some ta, None => Some ta
  | None, _ => b
  end.

(** The message is the one of the database, which quotes the names of the
    table and of the constraint. *)
Definition foreignKeyError (constraint : string) : Thrown :=
  ThrownError "SequelizeForeignKeyConstraintError"
    ("insert or update on table " +:+ double_quote +:+ "users_books"
       +:+ double_quote +:+ " violates foreign key constraint "
       +:+ double_quote +:+ constraint +:+ double_quote).

Definition set_bookDetails (bd : JSON) (b : Book) : Book :=
  mkBook (book_id b) (quickLink b) bd.

Definition set_values (v : Values) (r : UsersBooks) : UsersBooks :=
  mkUsersBooks (id r) (userId r) (bookId r)
    (v_userRating v) (v_dateStarted v) (v_dateFinished v) (v_userNotes v)
    (import r).

(** [book.toJSON()] *)
Definition Book_toJSON (b : Book) : Obj :=
  [("id", JNum (book_id b));
   ("quickLink", JStr (quickLink b));
   ("bookDetails", bookDetails b)].

Section Store.
Variable E : Env.

(** Every call on the store is traced, and rejects when the oracle says
    so. *)
Definition call (op : StoreOp) : M unit :=
  fun w =>
    let w' := mkWorld (db w) (trace w ++ [EvStore op]) in
    match fault E (trace w) op with
    | Some t => (Err t, w')
    | None => (Ok tt, w')
    end.

(** [Book.findByPk(bookId)] *)
Definition Book_findByPk (bookId : Z) : M (option Book) :=
  call OpBookFindByPk ;;
  d <- getDB ;;
  ret (books d !! bookId).

(** [book.update({ bookDetails })]: one UPDATE on the book's primary
    key; the instance at hand carries the new value afterwards. *)
Definition Book_update (b : Book) (bd : JSON) : M Book :=
  call OpBookUpdate ;;
  d <- getDB ;;
  putDB (mkDB (users d) (alter (set_bookDetails bd) (book_id b) (books d))
           (usersBooks d) (nextId d)) ;;
  ret (set_bookDetails bd b).

(** [UsersBooks.findAll({ where, include })] *)
Definition UsersBooks_findAll (wh : Where) : M (list UsersBooksType) :=
  call OpFindAll ;;
  d <- getDB ;;
  ret (map (include_book d) (filter (fun r => matches wh r = true) (usersBooks d))).

(** [UsersBooks.findOne({ where })] *)
Definition UsersBooks_findOne (wh : Where) : M (option UsersBooks) :=
  call OpFindOne ;;
  d <- getDB ;;
  ret (head (filter (fun r => matches wh r = true) (usersBooks d))).

(** [UsersBooks.findOne({ where, include })] *)
Definition UsersBooks_findOne_include (wh : Where) : M (option UsersBooksType) :=
  call OpFindOne ;;
  d <- getDB ;;
  ret (include_book d <$> head (filter (fun r => matches wh r = true) (usersBooks d))).

(** [UsersBooks.create({...})]: the validators run first, and nothing
    is sent to the database when one fails; then the INSERT takes the
    next value of the id sequence for the new row, and the foreign keys
    on [userId] and [bookId] may still refuse it, in which case the value
    taken from the sequence is lost. *)
Definition UsersBooks_create (userId bookId : Z) (v : Values) (import : bool)
  : M UsersBooks :=
  call OpCreate ;;
  d <- getDB ;;
  match all_failures (validate_userRating (v_userRating v))
                     (validate_userNotes (v_userNotes v)) with
  | Some t => throw t
  | None =>
      if negb (bool_decide (userId ∈ users d))
      then putDB (mkDB (users d) (books d) (usersBooks d) (nextId d + 1)) ;;
           throw (foreignKeyError "users_books_userId_fkey")
      else if negb (bool_decide (is_Some (books d !! bookId)))
      then putDB (mkDB (users d) (books d) (usersBooks d) (nextId d + 1)) ;;
           throw (foreignKeyError "users_books_bookId_fkey")
      else
        let r := mkUsersBooks (nextId d) userId bookId
                   (v_userRating v) (v_dateStarted v) (v_dateFinished v)
                   (v_userNotes v) import in
        putDB (mkDB (users d) (books d) (usersBooks d ++ [r]) (nextId d + 1)) ;;
        ret r
  end.

(** [userBook.update({...})]: Sequelize validates the attributes whose
    value changes, then issues one UPDATE on the row's primary key. *)
Definition changed {A} `{EqDecision A} (old new : A) (check : option Thrown)
  : option Thrown :=
  if bool_decide (old = new) then None else check.

Definition UsersBooks_update (r : UsersBooks) (v : Values) : M UsersBooks :=
  call OpUpdate ;;
  d <- getDB ;;
  match all_failures
          (changed (userRating r) (v_userRating v)
             (validate_userRating (v_userRating v)))
          (changed (userNotes r) (v_userNotes v)
             (validate_userNotes (v_userNotes v))) with
  | Some t => throw t
  | None =>
      putDB (mkDB (users d) (books d)
               (map (fun r' => if id r' =? id r then set_values v r' else r')
                  (usersBooks d))
               (nextId d)) ;;
      ret (set_values v r)
  end.

(** [UsersBooks.destroy({ where })]: the number of rows deleted. *)
Definition UsersBooks_destroy (wh : Where) : M nat :=
  call OpDestroy ;;
  d <- getDB ;;
  putDB (mkDB (users d) (books d)
           (filter (fun r => matches wh r = false) (usersBooks d))
           (nextId d)) ;;
  ret (length (filter (fun r => matches wh r = true) (usersBooks d))).

(** [bookModule.getFromBookQuickLink(quickLink)] *)
Definition getFromBookQuickLink (link : string) : M Obj :=
  log (EvFetch link) ;;
  match provider E link with
  | inl t => throw t
  | inr o => ret o
  end.

End Store.

(** ** The service: [usersBooks.service.ts] *)

(** The plain object [{ ...userBook.toJSON(), book: {...} }]: the columns
    of the association row, and the [book] object that replaces the one
    coming from the include. *)
Record UserBookDetails : Type := mkUserBookDetails {
  ubd_row : UsersBooks;
  ubd_book : Obj
}.

(** What [addBookToUser] hands back: the row found by the plain
    [findOne], or the row re-read with its book. *)
Inductive Instance : Type :=
| Plain (r : UsersBooks)
| WithBook (r : UsersBooksType).

Definition typeError (msg : string) : Thrown := ThrownError "TypeError" msg.

(** The [catch] block shared by the five operations:
    [if (error instanceof Error) throw new Error(error.message);
     else throw new Error('An unknown error occurred');] *)
Definition surfaced (error : Thrown) : Thrown :=
  match error with
  | ThrownError _ message => newError message
  | ThrownOther _ => newError "An unknown error occurred"
  end.

Definition rethrow {A} (error : Thrown) : M A := throw (surfaced error).

(** [bookDetails.volumeInfo?.title] *)
Definition volumeInfo_title (bookDetails : JSON) : option JSON :=
  match prop "volumeInfo" bookDetails with
  | Some volumeInfo => prop "title" volumeInfo
  | None => None
  end.

(** [!bookDetails || !bookDetails.volumeInfo?.title] *)
Definition needsRefresh (bookDetails : JSON) : bool :=
  negb (truthy bookDetails) || negb (truthy_opt (volumeInfo_title bookDetails)).

(** [userRating !== null && userRating > 10] *)
Definition rating_above_10 (userRating : option Z) : bool :=
  match userRating with
  | Some r => 10 <? r
  | None => false
  end.

(** [userRating !== null && (userRating < 1 || userRating > 10)] *)
Definition rating_out_of_range (userRating : option Z) : bool :=
  match userRating with
  | Some r => (r <? 1) || (10 <? r)
  | None => false
  end.

(** [a && b && a > b] on two nullable dates *)
Definition both_and_after (a b : option Z) : bool :=
  match a, b with
  | Some x, Some y => y <? x
  | _, _ => false
  end.

(** [a && a > now] *)
Definition set_and_after (a : option Z) (now : Z) : bool :=
  match a with
  | Some x => now <? x
  | None => false
  end.

(** [userRating ? userRating : null] *)
Definition rating_or_null (userRating : option Z) : option Z :=
  match userRating with
  | Some r => if r =? 0 then None else Some r
  | None => None
  end.

(** [userNotes?.length ? userNotes : null] *)
Definition notes_or_null (userNotes : option string) : option string :=
  match userNotes with
  | Some s => if (String.length s =? 0)%nat then None else Some s
  | None => None
  end.

(** [Promise.all(xs.map(async x => f x))].  Each callback is a request of
    its own: a rejection of one does not stop the others, and the promise
    of the whole rejects when one of them does.  The callbacks are run
    here one after the other in the order of the list, which is one of
    the schedules of the fan-out; the rejection reported is the one of
    the earliest rejected entry. *)
Fixpoint settle_all {A B} (f : A -> M B) (xs : list A) (w : World)
  : list (Outcome B) * World :=
  match xs with
  | [] => ([], w)
  | x :: xs' =>
      let (o, w1) := f x w in
      let (os, w2) := settle_all f xs' w1 in
      (o :: os, w2)
  end.

Fixpoint all_fulfilled {B} (os : list (Outcome B)) : Outcome (list B) :=
  match os with
  | [] => Ok []
  | Err t :: _ => Err t
  | Ok b :: os' =>
      match all_fulfilled os' with
      | Ok bs => Ok (b :: bs)
      | Err t => Err t
      end
  end.

Definition Promise_all_map {A B} (f : A -> M B) (xs : list A) : M (list B) :=
  fun w => let (os, w') := settle_all f xs w in (all_fulfilled os, w').

Section Service.
Variable E : Env.

(** The callback of [getBooksForUser], lines 67-89. *)
Definition withDetails (userBook : UsersBooksType) : M UserBookDetails :=
  match book userBook with
  | None =>
      throw (typeError "Cannot read properties of null (reading 'bookDetails')")
  | Some b =>
      p <- (if needsRefresh (bookDetails b)
            then fetched <- getFromBookQuickLink E (quickLink b) ;;
                 b' <- Book_update E b (JObj fetched) ;;
                 ret (b', JObj fetched)
            else ret (b, bookDetails b)) ;;
      ret (mkUserBookDetails (row userBook)
             (obj_set "bookDetails" p.2 (Book_toJSON p.1)))
  end.

Definition getBooksForUser (userId : Z) : M (list UserBookDetails) :=
  try_catch
    (books <- UsersBooks_findAll E (mkWhere None (Some userId) None) ;;
     Promise_all_map withDetails books)
    rethrow.

Definition getBookForUser (userId bookId : Z) : M (option UserBookDetails) :=
  try_catch
    (found <- UsersBooks_findOne_include E (mkWhere (Some bookId) (Some userId) None) ;;
     match found with
     | None => ret None
     | Some bookWithDetails =>
         match book bookWithDetails with
         | None =>
             throw (typeError "Cannot read properties of null (reading 'quickLink')")
         | Some b =>
             bookDetails <- getFromBookQuickLink E (quickLink b) ;;
             ret (Some (mkUserBookDetails (row bookWithDetails)
                          (obj_spread (Book_toJSON b) bookDetails)))
         end
     end)
    rethrow.

(** [now] is the value of [new Date()] during the call. *)
Definition addBookToUser (now : Z) (userId bookId : Z)
    (userRating dateStarted dateFinished : option Z)
    (userNotes : option string) (importBook : bool) : M (option Instance) :=
  if rating_above_10 userRating
  then throw (newError "User rating must be between 1 and 10")
  else if both_and_after dateStarted dateFinished
  then throw (newError "Date started must be before date finished")
  else if set_and_after dateStarted now
  then throw (newError "Date started must be in the past")
  else
    bookExists <- Book_findByPk E bookId ;;
    match bookExists with
    | None => throw (newError "Book does not exist")
    | Some _ =>
        try_catch
          (existingBook <- UsersBooks_findOne E (mkWhere None (Some userId) (Some bookId)) ;;
           match existingBook with
           | Some existing => ret (Some (Plain existing))
           | None =>
               userBook <- UsersBooks_create E userId bookId
                             (mkValues (rating_or_null userRating) dateStarted
                                dateFinished (notes_or_null userNotes))
                             importBook ;;
               bookWithDetails <- UsersBooks_findOne_include E
                                    (mkWhere (Some (id userBook)) None None) ;;
               ret (WithBook <$> bookWithDetails)
           end)
          rethrow
    end.

Definition updateUserBook (now : Z) (userId bookId : Z)
    (userRating dateStarted dateFinished : option Z)
    (userNotes : option string) : M (option UsersBooksType) :=
  if rating_out_of_range userRating
  then throw (newError "User rating must be between 1 and 10")
  else if both_and_after dateStarted dateFinished
  then throw (newError "Date started must be before date finished")
  else if set_and_after dateStarted now
  then throw (newError "Date started must be in the past")
  else
    try_catch
      (found <- UsersBooks_findOne E (mkWhere (Some bookId) (Some userId) None) ;;
       match found with
       | None => throw (newError "Book not found for this user")
       | Some userBook =>
           UsersBooks_update E userBook
             (mkValues userRating dateStarted dateFinished userNotes) ;;
           UsersBooks_findOne_include E (mkWhere (Some (id userBook)) None None)
       end)
      rethrow.

Definition deleteBookFromUser (userId bookId : Z) : M unit :=
  try_catch
    (result <- UsersBooks_destroy E (mkWhere (Some bookId) (Some userId) None) ;;
     if (result =? 0)%nat then throw (newError "Book not found") else ret tt)
    rethrow.

End Service.

(** ** The client: [useMyFetch] *)

(** The [options] argument: [method], [headers] and [body], each possibly
    [undefined]. *)
Record Options : Type := mkOptions {
  opt_method : option string;
  opt_headers : option Obj;
  opt_body : option JSON
}.

(** What is handed to [fetch]: the url and [fetchOptions]. *)
Record Request : Type := mkRequest {
  req_url : string;
  req_method : string;
  req_headers : Obj;
  req_body : option string
}.

(** What the code reads of a response: [status], [ok], the
    [content-type] header and the outcome of [json()]. *)
Record Response : Type := mkResponse {
  resp_status : Z;
  resp_ok : bool;
  resp_content_type : option string;
  resp_json : Thrown + JSON
}.

Inductive ClientEvent : Type :=
| EvPreferencesGet (key : string)
| EvRequest (r : Request)
| EvRefresh
| EvLogout
| EvNavigate (path : string)
| EvConsoleError (label : string) (error : Thrown).

(** The surroundings of the composable: the runtime configuration,
    [process.client], the token store, [fetch], [refreshAccessToken] and
    [navigateTo] (whose answers may depend on what happened before), and
    [JSON.stringify]. *)
Record ClientEnv : Type := mkClientEnv {
  baseUrl : string;
  process_client : bool;
  Preferences_get : list ClientEvent -> string -> Thrown + option string;
  fetch : list ClientEvent -> Request -> Thrown + Response;
  refreshAccessToken : list ClientEvent -> Thrown + option string;
  navigateTo : string -> JSON;
  JSON_stringify : JSON -> string
}.

(** A run that is cut short by the fuel is [None]. *)
Definition Run (A : Type) : Type := option (Outcome A * list ClientEvent).

(** Truthiness of a token: [null] and the empty string are falsy. *)
Definition truthy_token (token : option string) : bool :=
  match token with
  | Some s => negb (String.eqb s EmptyString)
  | None => false
  end.

(** [useAuthHeader && token ? { 'Authorization': `Bearer ${token}` } : {}] *)
Definition authorization (useAuthHeader : bool) (token : option string) : Obj :=
  match token with
  | Some s =>
      if useAuthHeader && truthy_token token
      then [("Authorization", JStr ("Bearer " +:+ s))]
      else []
  | None => []
  end.

(** The [headers] object of [fetchWithToken]. *)
Definition request_headers (useAuthHeader : bool) (token : option string)
    (options : Options) : Obj :=
  obj_spread
    (obj_spread [("Content-Type", JStr "application/json")]
       (authorization useAuthHeader token))
    (match opt_headers options with Some h => h | None => [] end).

(** [options.method || 'GET'] *)
Definition request_method (options : Options) : string :=
  match opt_method options with
  | Some m => if String.eqb m EmptyString then "GET" else m
  | None => "GET"
  end.

(** [...(options.body && { body: JSON.stringify(options.body) })] *)
Definition request_body (stringify : JSON -> string) (options : Options)
  : option string :=
  match opt_body options with
  | Some b => if truthy b then Some (stringify b) else None
  | None => None
  end.

(** [contentType.includes('application/json')] *)
Definition includes (needle haystack : string) : bool :=
  match String.index 0 needle haystack with
  | Some _ => true
  | None => false
  end.

(** [!contentType || !contentType.includes('application/json')] *)
Definition not_json (contentType : option string) : bool :=
  match contentType with
  | Some c => String.eqb c EmptyString || negb (includes "application/json" c)
  | None => true
  end.

(** The [catch] block of [fetchWithToken]: what it throws for what it
    caught.  Reading [.message] of [null] is itself a [TypeError]. *)
Definition caught_by_fetchWithToken (error : Thrown) : Thrown :=
  match error with
  | ThrownError _ message =>
      if String.eqb message "Failed to fetch"
      then newError "Network error, please try again later"
      else error
  | ThrownOther JNull =>
      typeError "Cannot read properties of null (reading 'message')"
  | ThrownOther (JObj o) =>
      match obj_get "message" o with
      | Some (JStr message) =>
          if String.eqb message "Failed to fetch"
          then newError "Network error, please try again later"
          else error
      | _ => error
      end
  | ThrownOther _ => error
  end.

Section UseMyFetch.
Variable C : ClientEnv.
Variable path : string.
Variable options : Options.
Variable useAuthHeader : bool.

(** [`${config.public.baseUrl}${path}`] *)
Definition request_url : string := baseUrl C +:+ path.

Definition request_for (token : option string) : Request :=
  mkRequest request_url (request_method options)
    (request_headers useAuthHeader token options)
    (request_body (JSON_stringify C) options).

(** [fetchWithToken].  The promises it returns without awaiting them
    ([response.json()], [navigateTo('/login')]) settle outside its [try];
    what the awaited recursive call rejects with goes through its
    [catch]. *)
Fixpoint fetchWithToken (fuel : nat) (token : option string)
    (t : list ClientEvent) : Run JSON :=
  match fuel with
  | O => None
  | S fuel' =>
      let request := request_for token in
      let t1 := t ++ [EvRequest request] in
      match fetch C t request with
      | inl error => Some (Err (caught_by_fetchWithToken error), t1)
      | inr response =>
          if resp_status response =? 401 then
            if process_client C then
              let t2 := t1 ++ [EvRefresh] in
              match refreshAccessToken C t1 with
              | inl error => Some (Err (caught_by_fetchWithToken error), t2)
              | inr newToken =>
                  if truthy_token newToken then
                    match fetchWithToken fuel' newToken t2 with
                    | None => None
                    | Some (Ok v, t3) => Some (Ok v, t3)
                    | Some (Err error, t3) =>
                        Some (Err (caught_by_fetchWithToken error), t3)
                    end
                  else
                    Some (Ok (navigateTo C "/login"),
                          t2 ++ [EvLogout; EvNavigate "/login"])
              end
            else Some (Ok JNull, t1)
          else if negb (resp_ok response) then
            Some (Err (caught_by_fetchWithToken
                         (newError ("HTTP error! status: "
                                      +:+ pretty (resp_status response)))), t1)
          else if not_json (resp_content_type response) then
            Some (Err (caught_by_fetchWithToken
                         (newError "Invalid content-type, expected application/json")),
                  t1)
          else
            match resp_json response with
            | inl error => Some (Err error, t1)
            | inr v => Some (Ok v, t1)
            end
      end
  end.

Definition useMyFetch (fuel : nat) (t : list ClientEvent) : Run JSON :=
  let attempt :=
    if process_client C then
      let t1 := t ++ [EvPreferencesGet "access_token"] in
      match Preferences_get C t "access_token" with
      | inl error => Some (Err error, t1)
      | inr token => fetchWithToken fuel token t1
      end
    else fetchWithToken fuel None t in
  match attempt with
  | None => None
  | Some (Ok v, t') => Some (Ok v, t')
  | Some (Err error, t') =>
      Some (Err error, t' ++ [EvConsoleError "Fetch error:" error])
  end.

End UseMyFetch.

(** * Properties *)

(** ** Vocabulary of the statements *)

(** The store answers every call. *)
Definition reliable (E : Env) : Prop := forall t op, fault E t op = None.

(** The links the provider was asked for, oldest first. *)
Fixpoint fetches (t : list Event) : list string :=
  match t with
  | [] => []
  | EvFetch link :: t' => link :: fetches t'
  | EvStore _ :: t' => fetches t'
  end.

(** The messages of the service. *)
Definition msg_rating : string := "User rating must be between 1 and 10".
Definition msg_order : string := "Date started must be before date finished".
Definition msg_past : string := "Date started must be in the past".
Definition msg_no_book : string := "Book does not exist".
Definition msg_not_found_for_user : string := "Book not found for this user".
Definition msg_not_found : string := "Book not found".

(** What the constraints of the schema guarantee of a store: primary keys
    are unique and below the sequence, [books] is keyed by [book_id], and
    both foreign keys of an association point at existing rows. *)
Record wf (d : DB) : Prop := mkWf {
  wf_ids_below : Forall (fun r => id r < nextId d) (usersBooks d);
  wf_ids_nodup : NoDup (map id (usersBooks d));
  wf_book_keys : map_Forall (fun k b => book_id b = k) (books d);
  wf_fk : Forall (fun r => userId r ∈ users d /\ is_Some (books d !! bookId r))
            (usersBooks d)
}.

(** An environment and a store to run the operations on. *)
Definition demo_volume (title : string) : Obj :=
  [("kind", JStr "books#volume");
   ("volumeInfo",
    JObj [("title", JStr ("Title of " +:+ title)); ("pageCount", JNum 310)])].

Definition demo_env : Env :=
  mkEnv (fun link => inr (demo_volume link)) (fun _ _ => None).

Definition demo_db : DB :=
  mkDB {[1; 2]}
       (<[5 := mkBook 5 "volumes/five" JNull]>
          (<[6 := mkBook 6 "volumes/six" (JObj (demo_volume "Six"))]> ∅))
       [mkUsersBooks 1 1 6 (Some 8) None None None false;
        mkUsersBooks 2 2 5 None None None (Some "to read") false]
       3.

Definition demo_world : World := mkWorld demo_db [].

(** No row of the store is the association [a] of user [u]. *)
Definition no_association (d : DB) (u a : Z) : Prop :=
  Forall (fun r => ~ (userId r = u /\ id r = a)) (usersBooks d).

(** User [u] has no association with book [b]. *)
Definition not_yet_added (d : DB) (u b : Z) : Prop :=
  Forall (fun r => ~ (userId r = u /\ bookId r = b)) (usersBooks d).

(** The checks of the service and the validators of the model all let the
    payload through. *)
Definition add_accepts (now : Z) (r ds df : option Z) (n : option string) : bool :=
  negb (rating_above_10 r)
  && negb (both_and_after ds df)
  && negb (set_and_after ds now)
  && bool_decide (validate_userRating (rating_or_null r) = None)
  && bool_decide (validate_userNotes (notes_or_null n) = None).

(** The association a scoped [findOne] returns. *)
Definition lookup_association (d : DB) (u a : Z) : option UsersBooks :=
  head (filter (fun x => matches (mkWhere (Some a) (Some u) None) x = true)
          (usersBooks d)).

(** The specification's notion: a blob that is an object, whose
    [volumeInfo] has a [title] that is not empty (not falsy). *)
Definition valid_cache (bd : JSON) : Prop :=
  exists o vi t,
    bd = JObj o
    /\ obj_get "volumeInfo" o = Some vi
    /\ prop "title" vi = Some t
    /\ truthy t = true.

(** The rows of a user as [findAll] returns them. *)
Definition associations_of (d : DB) (u : Z) : list UsersBooksType :=
  map (include_book d)
    (filter (fun r => matches (mkWhere None (Some u) None) r = true) (usersBooks d)).

(** The books of the associations whose cache is a miss. *)
Definition misses (l : list UsersBooksType) : list Book :=
  filter (fun bk => needsRefresh (bookDetails bk) = true) (omap book l).

(** The [book] object of an entry of the list: the columns of the book,
    with [bookDetails] set. *)
Definition listed_book (bk : Book) (details : JSON) : Obj :=
  [("id", JNum (book_id bk));
   ("quickLink", JStr (quickLink bk));
   ("bookDetails", details)].

(** The store with another table of books. *)
Definition with_books (d : DB) (m : gmap Z Book) : DB :=
  mkDB (users d) m (usersBooks d) (nextId d).

(** What one callback of [getBooksForUser] yields, logs and writes when
    the store answers; the lemmas below show that [withDetails] does
    exactly this. *)
Section ClosedForm.
Variable E : Env.

Definition outcome_of (j : UsersBooksType) : Outcome UserBookDetails :=
  match book j with
  | None => Err (typeError "Cannot read properties of null (reading 'bookDetails')")
  | Some bk =>
      if needsRefresh (bookDetails bk) then
        match provider E (quickLink bk) with
        | inr d => Ok (mkUserBookDetails (row j) (listed_book bk (JObj d)))
        | inl t => Err t
        end
      else Ok (mkUserBookDetails (row j) (listed_book bk (bookDetails bk)))
  end.

Definition events_of (j : UsersBooksType) : list Event :=
  match book j with
  | None => []
  | Some bk =>
      if needsRefresh (bookDetails bk) then
        EvFetch (quickLink bk)
          :: match provider E (quickLink bk) with
             | inr _ => [EvStore OpBookUpdate]
             | inl _ => []
             end
      else []
  end.

Definition books_after (m : gmap Z Book) (j : UsersBooksType) : gmap Z Book :=
  match book j with
  | None => m
  | Some bk =>
      if needsRefresh (bookDetails bk) then
        match provider E (quickLink bk) with
        | inr d => alter (set_bookDetails (JObj d)) (book_id bk) m
        | inl _ => m
        end
      else m
  end.

(** Relative to the table [m0] the rows were read from: book [k] was a
    miss and now holds what the provider answered. *)
Definition refreshed (m0 m : gmap Z Book) (k : Z) : Prop :=
  exists bk d,
    m0 !! k = Some bk
    /\ needsRefresh (bookDetails bk) = true
    /\ provider E (quickLink bk) = inr d
    /\ m !! k = Some (set_bookDetails (JObj d) bk).

Definition tracks (m0 m : gmap Z Book) : Prop :=
  forall k, m !! k = m0 !! k \/ refreshed m0 m k.

End ClosedForm.

(** The book that came with the row is the one of the table [m0]. *)
Definition snapshot_of (m0 : gmap Z Book) (j : UsersBooksType) : Prop :=
  forall bk, book j = Some bk -> m0 !! book_id bk = Some bk.

(** A computation that keeps the store well formed, whether it returns
    or throws. *)
Definition preserves {A} (m : M A) : Prop :=
  forall w, wf (db w) -> wf (db (snd (m w))).

(** A provider that is out of quota, and says so. *)
Definition quota_error : Thrown :=
  ThrownError "GaxiosError"
    "Quota exceeded for quota metric Queries of service books.googleapis.com".

Definition failing_env : Env :=
  mkEnv (fun _ => inl quota_error) (fun _ _ => None).






(** ** Vocabulary of the further properties *)

(** The rows of user [u], in the order of the store. *)
Definition rows_of (d : DB) (u : Z) : list UsersBooks :=
  filter (fun r => userId r = u) (usersBooks d).

(** [m] takes every world to one that is [R]-related to it, whether it
    returns or throws. *)
Definition stable (R : World -> World -> Prop) {A} (m : M A) : Prop :=
  forall w, R w (snd (m w)).

Definition same_store (w w' : World) : Prop := db w' = db w.

(** Nothing was asked of the provider, and the tables of books and of
    users are as they were. *)
Definition same_catalog_no_fetch (w w' : World) : Prop :=
  fetches (trace w') = fetches (trace w)
  /\ books (db w') = books (db w)
  /\ users (db w') = users (db w).

(** Book [b'] is book [b] up to its cached details. *)
Definition same_book_but_details (b b' : option Book) : Prop :=
  match b, b' with
  | Some x, Some x' => book_id x' = book_id x /\ quickLink x' = quickLink x
  | None, None => True
  | _, _ => False
  end.

(** No table changed, but for the cached details of the books. *)
Definition only_details_change (w w' : World) : Prop :=
  users (db w') = users (db w)
  /\ usersBooks (db w') = usersBooks (db w)
  /\ nextId (db w') = nextId (db w)
  /\ forall k, same_book_but_details (books (db w) !! k) (books (db w') !! k).

(** The rows of [u'] are as they were. *)
Definition same_rows_of (u' : Z) (w w' : World) : Prop :=
  rows_of (db w') u' = rows_of (db w) u'.

(** Notes the model stores as they are: 1 to 1000 characters. *)
Definition notes_storable (n : option string) : Prop :=
  forall s, n = Some s -> (1 <= String.length s <= 1000)%nat.

(** A store whose connection drops, throwing a value that is not an
    [Error]. *)
Definition dropped_connection : Thrown := ThrownOther (JStr "ECONNRESET").

Definition offline_env : Env :=
  mkEnv (fun link => inr (demo_volume link)) (fun _ _ => Some dropped_connection).

(** Notes of 1001 characters. *)
Definition long_notes : string :=
  String.string_of_list_ascii (repeat (Ascii.ascii_of_nat 120) 1001).

(** ** Vocabulary of the properties of the client *)

(** The token [useMyFetch] starts with, and the trace once it has been
    read: the stored access token in the browser, [null] on the server. *)
Definition token_read (C : ClientEnv) (t : list ClientEvent)
  : Thrown + (option string * list ClientEvent) :=
  if process_client C then
    match Preferences_get C t "access_token" with
    | inl error => inl error
    | inr token => inr (token, t ++ [EvPreferencesGet "access_token"])
    end
  else inr (None, t).

Fixpoint requests_in (t : list ClientEvent) : list Request :=
  match t with
  | [] => []
  | EvRequest r :: t' => r :: requests_in t'
  | _ :: t' => requests_in t'
  end.

Fixpoint refreshes_in (t : list ClientEvent) : nat :=
  match t with
  | [] => O
  | EvRefresh :: t' => S (refreshes_in t')
  | _ :: t' => refreshes_in t'
  end.

(** Requests and refreshes take turns in a trace, the other events
    aside: a request is sent only when [may_request] holds, which it does
    no more once a request is sent and until the token is refreshed; and
    the token is refreshed only after a request that no refresh has
    followed yet. *)
Fixpoint alternates (may_request : bool) (t : list ClientEvent) : bool :=
  match t with
  | [] => true
  | EvRequest _ :: t' => may_request && alternates false t'
  | EvRefresh :: t' => negb may_request && alternates true t'
  | _ :: t' => alternates may_request t'
  end.

(** The caller's headers: [options.headers], nothing when [undefined]. *)
Definition caller_headers (options : Options) : Obj :=
  match opt_headers options with Some h => h | None => [] end.

(** What the outer [catch] of [useMyFetch] adds to the trace. *)
Definition console_error (res : Outcome JSON) : list ClientEvent :=
  match res with
  | Ok _ => []
  | Err error => [EvConsoleError "Fetch error:" error]
  end.

(** A browser with a stored token, given its server and its refresh. *)
Definition demo_browser
    (server : list ClientEvent -> Request -> Thrown + Response)
    (refresh : list ClientEvent -> Thrown + option string) : ClientEnv :=
  mkClientEnv "https://api.example" true (fun _ _ => inr (Some "stale-token"))
    server refresh (fun p => JStr p) (fun _ => "{}").

(** The same on the server side of the rendering. *)
Definition demo_ssr
    (server : list ClientEvent -> Request -> Thrown + Response) : ClientEnv :=
  mkClientEnv "https://api.example" false (fun _ _ => inr None)
    server (fun _ => inr None) (fun p => JStr p) (fun _ => "{}").

Definition unauthorized : Response :=
  mkResponse 401 false (Some "text/plain") (inl (newError "Unexpected token U")).

Definition books_json : JSON := JArr [JObj [("id", JNum 1)]].

Definition books_response : Response :=
  mkResponse 200 true (Some "application/json; charset=utf-8") (inr books_json).

(** A server that accepts the fresh token only. *)
Definition picky_server (t : list ClientEvent) (r : Request) : Thrown + Response :=
  match obj_get "Authorization" (req_headers r) with
  | Some (JStr "Bearer fresh-token") => inr books_response
  | _ => inr unauthorized
  end.

Definition fresh_refresh (t : list ClientEvent) : Thrown + option string :=
  inr (Some "fresh-token").

(** A server that refuses whatever it is sent. *)
Definition locked_server (t : list ClientEvent) (r : Request) : Thrown + Response :=
  inr unauthorized.

(** No network. *)
Definition no_network (t : list ClientEvent) (r : Request) : Thrown + Response :=
  inl (ThrownError "TypeError" "Failed to fetch").

(** A server that is down. *)
Definition unavailable : Response := mkResponse 503 false None (inr JNull).

Definition down_server (t : list ClientEvent) (r : Request) : Thrown + Response :=
  inr unavailable.

(** A refresh that has nothing to give. *)
Definition expired_refresh (t : list ClientEvent) : Thrown + option string :=
  inr None.

Definition demo_options : Options :=
  mkOptions None (Some [("Accept", JStr "application/json")]) None.

(** Unfolding the monad in proofs. *)
Ltac run :=
  unfold bind, ret, throw, try_catch, rethrow, log, getDB, putDB, call;
  cbn [fst snd db trace].

(** * Proofs *)

(** ** The demonstration store *)

Lemma demo_env_reliable : reliable demo_env.
Proof. intros t op. reflexivity. Qed.

Lemma demo_db_wf : wf demo_db.
Proof.
  split.
  - apply (bool_decide_unpack _). vm_compute. exact I.
  - apply (bool_decide_unpack _). vm_compute. exact I.
  - apply (bool_decide_unpack _). vm_compute. exact I.
  - apply (bool_decide_unpack _). vm_compute. exact I.
Qed.

Lemma matches_id_user (a u : Z) (r : UsersBooks) :
  matches (mkWhere (Some a) (Some u) None) r = true <-> userId r = u /\ id r = a.
Proof.
  unfold matches, col_matches; cbn.
  rewrite andb_true_r, andb_true_iff, !Z.eqb_eq. intuition congruence.
Qed.

Lemma matches_user_book (u b : Z) (r : UsersBooks) :
  matches (mkWhere None (Some u) (Some b)) r = true <-> userId r = u /\ bookId r = b.
Proof.
  unfold matches, col_matches; cbn.
  rewrite andb_true_iff, !Z.eqb_eq. intuition congruence.
Qed.

Lemma matches_id (a : Z) (r : UsersBooks) :
  matches (mkWhere (Some a) None None) r = true <-> id r = a.
Proof.
  unfold matches, col_matches; cbn.
  rewrite !andb_true_r, Z.eqb_eq. intuition congruence.
Qed.

Lemma matches_user (u : Z) (r : UsersBooks) :
  matches (mkWhere None (Some u) None) r = true <-> userId r = u.
Proof.
  unfold matches, col_matches; cbn.
  rewrite !andb_true_r, Z.eqb_eq. intuition congruence.
Qed.

(** A filter that keeps nothing of interest keeps everything else. *)
Lemma filter_none_all {A} (P : A -> bool) (l : list A) :
  filter (fun x => P x = true) l = [] ->
  filter (fun x => P x = false) l = l.
Proof.
  induction l as [|x l IH]; [reflexivity|].
  rewrite !filter_cons. destruct (P x) eqn:HP.
  - rewrite decide_True by reflexivity. discriminate.
  - rewrite decide_False by discriminate. rewrite decide_True by reflexivity.
    intros H. f_equal. auto.
Qed.

(** ** Well-formedness is an invariant of the service *)

Lemma preserves_ret {A} (a : A) : preserves (ret a).
Proof. intros w Hw. exact Hw. Qed.

Lemma preserves_throw {A} (t : Thrown) : preserves (@throw A t).
Proof. intros w Hw. exact Hw. Qed.

Lemma preserves_bind {A B} (m : M A) (k : A -> M B) :
  preserves m -> (forall a, preserves (k a)) -> preserves (bind m k).
Proof.
  intros Hm Hk w Hw. unfold bind. specialize (Hm w Hw).
  destruct (m w) as [[a|t] w']; cbn [snd] in *; [apply Hk; exact Hm|exact Hm].
Qed.

Lemma preserves_try_catch {A} (m : M A) (h : Thrown -> M A) :
  preserves m -> (forall t, preserves (h t)) -> preserves (try_catch m h).
Proof.
  intros Hm Hh w Hw. unfold try_catch. specialize (Hm w Hw).
  destruct (m w) as [[a|t] w']; cbn [snd] in *; [exact Hm|apply Hh; exact Hm].
Qed.

Lemma preserves_rethrow {A} (t : Thrown) : preserves (@rethrow A t).
Proof. apply preserves_throw. Qed.

Lemma preserves_call E op : preserves (call E op).
Proof.
  intros w Hw. unfold call. destruct (fault E (trace w) op); exact Hw.
Qed.

Lemma preserves_log e : preserves (log e).
Proof. intros w Hw. exact Hw. Qed.

Lemma preserves_reader E op {A} (f : DB -> A) :
  preserves (call E op ;; d <- getDB ;; ret (f d)).
Proof.
  apply preserves_bind; [apply preserves_call|]. intros _ w Hw. exact Hw.
Qed.

Lemma NoDup_map_filter {A B} (f : A -> B) (P : A -> Prop)
    `{forall x, Decision (P x)} (l : list A) :
  NoDup (map f l) -> NoDup (map f (filter P l)).
Proof.
  induction l as [|x l IH]; [cbn; auto|].
  cbn [map]. rewrite NoDup_cons. intros [Hx Hl]. rewrite filter_cons.
  destruct (decide (P x)); [|auto].
  cbn [map]. apply NoDup_cons. split; [|auto].
  intros Hin. apply Hx.
  apply list_elem_of_In, in_map_iff in Hin as (y & Hy & Hin).
  apply list_elem_of_In, in_map_iff. exists y. split; [exact Hy|].
  apply list_elem_of_In. apply list_elem_of_In, list_elem_of_filter in Hin. tauto.
Qed.

Lemma Forall_filter_keep {A} (Q : A -> Prop) (P : A -> Prop)
    `{forall x, Decision (P x)} (l : list A) :
  Forall Q l -> Forall Q (filter P l).
Proof.
  rewrite !Forall_forall. intros HQ x Hx.
  apply list_elem_of_filter in Hx as [_ Hx]. auto.
Qed.

Lemma preserves_Book_findByPk E k : preserves (Book_findByPk E k).
Proof. apply preserves_reader. Qed.

Lemma preserves_findAll E wh : preserves (UsersBooks_findAll E wh).
Proof. apply (preserves_reader E OpFindAll). Qed.

Lemma preserves_findOne E wh : preserves (UsersBooks_findOne E wh).
Proof. apply (preserves_reader E OpFindOne). Qed.

Lemma preserves_findOne_include E wh : preserves (UsersBooks_findOne_include E wh).
Proof. apply (preserves_reader E OpFindOne). Qed.

Lemma preserves_Book_update E b bd : preserves (Book_update E b bd).
Proof.
  apply preserves_bind; [apply preserves_call|]. intros _ w [H1 H2 H3 H4].
  run. cbn [snd db]. split; cbn [usersBooks nextId books users]; auto.
  - intros k b' Hb'. apply lookup_alter_Some in Hb' as [(<- & b0 & Hb0 & ->)|[_ Hb']].
    + cbn. exact (H3 _ _ Hb0).
    + exact (H3 _ _ Hb').
  - eapply Forall_impl; [exact H4|]. intros r [Hu Hb]. split; [exact Hu|].
    apply lookup_alter_is_Some. exact Hb.
Qed.

Lemma wf_sequence_advanced d :
  wf d -> wf (mkDB (users d) (books d) (usersBooks d) (nextId d + 1)).
Proof.
  intros [H1 H2 H3 H4]. split; cbn [usersBooks nextId books users]; auto.
  eapply Forall_impl; [exact H1|]. intros x Hx. cbn beta in *. lia.
Qed.

Lemma preserves_create E u b v imp : preserves (UsersBooks_create E u b v imp).
Proof.
  apply preserves_bind; [apply preserves_call|]. intros _ w Hw.
  run. destruct (all_failures _ _); [exact Hw|].
  destruct (bool_decide (u ∈ users (db w))) eqn:Hu; cbn [negb];
    [|apply wf_sequence_advanced; exact Hw].
  destruct (bool_decide (is_Some (books (db w) !! b))) eqn:Hb; cbn [negb];
    [|apply wf_sequence_advanced; exact Hw].
  apply bool_decide_eq_true in Hu, Hb.
  destruct Hw as [H1 H2 H3 H4]. run. cbn [snd db].
  split; cbn [usersBooks nextId books users].
  - apply Forall_app. split.
    + eapply Forall_impl; [exact H1|]. intros r Hr. cbn beta in *. lia.
    + repeat constructor. cbn. lia.
  - rewrite map_app. apply NoDup_app. split; [exact H2|]. split.
    + intros x Hx Hx'. cbn in Hx'. apply list_elem_of_singleton in Hx'. subst x.
      apply list_elem_of_In, in_map_iff in Hx as (r & Hr & Hin).
      apply list_elem_of_In in Hin.
      pose proof (proj1 (Forall_forall _ _) H1 r Hin) as Hlt. cbn beta in Hlt. lia.
    + cbn. apply NoDup_singleton.
  - exact H3.
  - apply Forall_app. split; [exact H4|]. repeat constructor; cbn; assumption.
Qed.

Lemma preserves_update E r v : preserves (UsersBooks_update E r v).
Proof.
  apply preserves_bind; [apply preserves_call|]. intros _ w Hw.
  run. destruct (all_failures _ _); [exact Hw|].
  destruct Hw as [H1 H2 H3 H4]. run. cbn [snd db].
  set (f := fun r' => if id r' =? id r then set_values v r' else r').
  assert (Hid : forall x, id (f x) = id x).
  { intros x. unfold f. destruct (id x =? id r); reflexivity. }
  assert (Hkeep : forall x, userId (f x) = userId x /\ bookId (f x) = bookId x).
  { intros x. unfold f. destruct (id x =? id r); split; reflexivity. }
  split; cbn [usersBooks nextId books users].
  - apply Forall_map. eapply Forall_impl; [exact H1|].
    intros x Hx. cbn beta in *. rewrite Hid. exact Hx.
  - rewrite map_map. erewrite map_ext; [exact H2|]. exact Hid.
  - exact H3.
  - apply Forall_map. eapply Forall_impl; [exact H4|].
    intros x Hx. cbn beta in *. destruct (Hkeep x) as [-> ->]. exact Hx.
Qed.

Lemma preserves_destroy E wh : preserves (UsersBooks_destroy E wh).
Proof.
  apply preserves_bind; [apply preserves_call|]. intros _ w [H1 H2 H3 H4].
  run. cbn [snd db]. split; cbn [usersBooks nextId books users].
  - apply Forall_filter_keep. exact H1.
  - apply NoDup_map_filter. exact H2.
  - exact H3.
  - apply Forall_filter_keep. exact H4.
Qed.

Lemma preserves_fetch E link : preserves (getFromBookQuickLink E link).
Proof.
  apply preserves_bind; [apply preserves_log|]. intros _.
  destruct (provider E link); [apply preserves_throw|apply preserves_ret].
Qed.

Lemma preserves_withDetails E j : preserves (withDetails E j).
Proof.
  unfold withDetails. destruct (book j) as [bk|]; [|apply preserves_throw].
  apply preserves_bind; [|intros; apply preserves_ret].
  destruct (needsRefresh (bookDetails bk)); [|apply preserves_ret].
  apply preserves_bind; [apply preserves_fetch|]. intros d.
  apply preserves_bind; [apply preserves_Book_update|]. intros; apply preserves_ret.
Qed.

Lemma preserves_Promise_all_map {A B} (f : A -> M B) (xs : list A) :
  (forall x, preserves (f x)) -> preserves (Promise_all_map f xs).
Proof.
  intros Hf w Hw. unfold Promise_all_map.
  revert w Hw. induction xs as [|x xs IH]; intros w Hw; [exact Hw|].
  cbn [settle_all]. specialize (Hf x w Hw).
  destruct (f x w) as [o w1]. cbn [snd] in Hf. specialize (IH w1 Hf).
  destruct (settle_all f xs w1) as [os w2]. exact IH.
Qed.

(** X15. Whatever the store and the provider do, and whether the call
    returns or rejects, each of the five operations takes a well-formed
    store (unique ids below the sequence, books keyed by their id, both
    foreign keys of every association valid) to a well-formed store. *)
Lemma service_preserves_wf E :
  (forall u, preserves (getBooksForUser E u))
  /\ (forall u a, preserves (getBookForUser E u a))
  /\ (forall now u b r ds df n imp, preserves (addBookToUser E now u b r ds df n imp))
  /\ (forall now u a r ds df n, preserves (updateUserBook E now u a r ds df n))
  /\ (forall u a, preserves (deleteBookFromUser E u a)).
Proof.
  split; [|split; [|split; [|split]]].
  - intros u. apply preserves_try_catch; [|apply @preserves_rethrow].
    apply preserves_bind; [apply preserves_findAll|]. intros l.
    apply preserves_Promise_all_map, preserves_withDetails.
  - intros u a. apply preserves_try_catch; [|apply @preserves_rethrow].
    apply preserves_bind; [apply preserves_findOne_include|].
    intros [j|]; [|apply preserves_ret].
    destruct (book j); [|apply preserves_throw].
    apply preserves_bind; [apply preserves_fetch|]. intros; apply preserves_ret.
  - intros now u b r ds df n imp. unfold addBookToUser.
    destruct (rating_above_10 r); [apply preserves_throw|].
    destruct (both_and_after ds df); [apply preserves_throw|].
    destruct (set_and_after ds now); [apply preserves_throw|].
    apply preserves_bind; [apply preserves_Book_findByPk|].
    intros [bk|]; [|apply preserves_throw].
    apply preserves_try_catch; [|apply @preserves_rethrow].
    apply preserves_bind; [apply preserves_findOne|].
    intros [existing|]; [apply preserves_ret|].
    apply preserves_bind; [apply preserves_create|]. intros created.
    apply preserves_bind; [apply preserves_findOne_include|].
    intros; apply preserves_ret.
  - intros now u a r ds df n. unfold updateUserBook.
    destruct (rating_out_of_range r); [apply preserves_throw|].
    destruct (both_and_after ds df); [apply preserves_throw|].
    destruct (set_and_after ds now); [apply preserves_throw|].
    apply preserves_try_catch; [|apply @preserves_rethrow].
    apply preserves_bind; [apply preserves_findOne|].
    intros [found|]; [|apply preserves_throw].
    apply preserves_bind; [apply preserves_update|]. intros updated.
    apply preserves_findOne_include.
  - intros u a. apply preserves_try_catch; [|apply @preserves_rethrow].
    apply preserves_bind; [apply preserves_destroy|]. intros n.
    destruct (n =? 0)%nat; [apply preserves_throw|apply preserves_ret].
Qed.

(** ** C4: the bounds on [userRating] *)

(** C4. A rating of 11 is rejected by [addBookToUser] and by
    [updateUserBook], whatever the other arguments and the store; a rating
    of 0 is rejected by [updateUserBook], while [addBookToUser] treats it
    exactly as an absent rating (and so succeeds on a store where the
    book exists): the add path tests [> 10] only, the update path tests
    both bounds of [1, 10]. *)
Theorem rating_bounds_add_vs_update :
  (forall E now u b ds df n imp w,
      addBookToUser E now u b (Some 11) ds df n imp w
      = (Err (newError msg_rating), w))
  /\ (forall E now u a ds df n w,
      updateUserBook E now u a (Some 11) ds df n w
      = (Err (newError msg_rating), w))
  /\ (forall E now u a ds df n w,
      updateUserBook E now u a (Some 0) ds df n w
      = (Err (newError msg_rating), w))
  /\ (forall E now u b ds df n imp w,
      addBookToUser E now u b (Some 0) ds df n imp w
      = addBookToUser E now u b None ds df n imp w)
  /\ (exists r,
      fst (addBookToUser demo_env 0 1 5 (Some 0) None None None false demo_world)
      = Ok (Some r))
  /\ (forall x, rating_above_10 (Some x) = true <-> 10 < x)
  /\ (forall x, rating_out_of_range (Some x) = true <-> x < 1 \/ 10 < x).
Proof.
  repeat split.
  - eexists. vm_compute. reflexivity.
  - cbn. apply Z.ltb_lt.
  - cbn. apply Z.ltb_lt.
  - cbn. rewrite orb_true_iff, !Z.ltb_lt. tauto.
  - cbn. rewrite orb_true_iff, !Z.ltb_lt. tauto.
Qed.

(** ** C5: the order of the checks of [addBookToUser] *)

(** C5. [addBookToUser] tests, in this order, the rating against 10, the
    order of the two dates, the start date against the clock, and only
    then looks the book up.  The first test that fails fixes the
    message; when one of the first three fails the world is returned as
    it was, trace included: the store has not been called, whatever it
    holds and however it would have answered. *)
Theorem addBookToUser_check_order E now u b r ds df n imp w :
  (rating_above_10 r = true ->
     addBookToUser E now u b r ds df n imp w = (Err (newError msg_rating), w))
  /\ (rating_above_10 r = false -> both_and_after ds df = true ->
     addBookToUser E now u b r ds df n imp w = (Err (newError msg_order), w))
  /\ (rating_above_10 r = false -> both_and_after ds df = false ->
      set_and_after ds now = true ->
     addBookToUser E now u b r ds df n imp w = (Err (newError msg_past), w))
  /\ (rating_above_10 r = false -> both_and_after ds df = false ->
      set_and_after ds now = false ->
      fault E (trace w) OpBookFindByPk = None ->
      books (db w) !! b = None ->
     addBookToUser E now u b r ds df n imp w
     = (Err (newError msg_no_book),
        mkWorld (db w) (trace w ++ [EvStore OpBookFindByPk]))).
Proof.
  unfold addBookToUser.
  split; [|split; [|split]].
  - intros ->. reflexivity.
  - intros -> ->. reflexivity.
  - intros -> -> ->. reflexivity.
  - intros -> -> -> Hfault Hbook.
    unfold Book_findByPk. run. rewrite Hfault. run. rewrite Hbook. reflexivity.
Qed.

Lemma addBookToUser_check_order_witness :
  addBookToUser demo_env 100 1 7 (Some 11) (Some 300) (Some 200) None false demo_world
  = (Err (newError msg_rating), demo_world)
  /\ addBookToUser demo_env 100 1 7 (Some 10) (Some 300) (Some 200) None false demo_world
  = (Err (newError msg_order), demo_world)
  /\ addBookToUser demo_env 100 1 7 (Some 10) (Some 300) None None false demo_world
  = (Err (newError msg_past), demo_world)
  /\ addBookToUser demo_env 100 1 7 (Some 10) (Some 50) None None false demo_world
  = (Err (newError msg_no_book), mkWorld demo_db [EvStore OpBookFindByPk]).
Proof.
  split; [|split; [|split]].
  - apply (addBookToUser_check_order demo_env 100 1 7 (Some 11) (Some 300) (Some 200)).
    reflexivity.
  - apply (addBookToUser_check_order demo_env 100 1 7 (Some 10) (Some 300) (Some 200));
      reflexivity.
  - apply (addBookToUser_check_order demo_env 100 1 7 (Some 10) (Some 300) None);
      reflexivity.
  - apply (addBookToUser_check_order demo_env 100 1 7 (Some 10) (Some 50) None
             None false demo_world); reflexivity.
Defined.

(** ** C3: [updateUserBook] on an association that does not exist *)

Lemma no_association_filter d u a :
  no_association d u a ->
  filter (fun r => matches (mkWhere (Some a) (Some u) None) r = true) (usersBooks d) = [].
Proof.
  unfold no_association. induction 1 as [|r l Hr _ IH]; [reflexivity|].
  rewrite filter_cons, decide_False; [exact IH|].
  rewrite matches_id_user. exact Hr.
Qed.

(** C3, as the specification has it, fails: with no association at all and
    a rating of 11 the rejection is the one of the rating check, which
    runs before the lookup. *)
Lemma updateUserBook_invalid_payload_not_NotFound :
  ~ (forall E now u a r ds df n w,
        no_association (db w) u a ->
        fst (updateUserBook E now u a r ds df n w)
        = Err (newError msg_not_found_for_user)).
Proof.
  intros H.
  specialize (H demo_env 100 1 99 (Some 11) None None None demo_world).
  assert (Hno : no_association (db demo_world) 1 99).
  { apply (bool_decide_unpack _). vm_compute. exact I. }
  specialize (H Hno). vm_compute in H. discriminate H.
Qed.

(** C3, amended.  When no association [a] of user [u] exists, the store
    answers the lookup and the payload passes the three checks on the
    rating and the dates, [updateUserBook] rejects with "Book not found
    for this user" and leaves the store as it was.  A payload that fails
    one of the checks is rejected by that check instead, before the
    store is asked. *)
Theorem updateUserBook_missing_association E now u a r ds df n w :
  no_association (db w) u a ->
  (rating_out_of_range r = false ->
   both_and_after ds df = false ->
   set_and_after ds now = false ->
   fault E (trace w) OpFindOne = None ->
   updateUserBook E now u a r ds df n w
   = (Err (newError msg_not_found_for_user),
      mkWorld (db w) (trace w ++ [EvStore OpFindOne])))
  /\ (rating_out_of_range r = true ->
      updateUserBook E now u a r ds df n w = (Err (newError msg_rating), w))
  /\ (rating_out_of_range r = false -> both_and_after ds df = true ->
      updateUserBook E now u a r ds df n w = (Err (newError msg_order), w))
  /\ (rating_out_of_range r = false -> both_and_after ds df = false ->
      set_and_after ds now = true ->
      updateUserBook E now u a r ds df n w = (Err (newError msg_past), w)).
Proof.
  intros Hno. unfold updateUserBook.
  split; [|split; [|split]].
  - intros -> -> -> Hfault.
    unfold UsersBooks_findOne. run. rewrite Hfault. run.
    rewrite (no_association_filter _ _ _ Hno). reflexivity.
  - intros ->. reflexivity.
  - intros -> ->. reflexivity.
  - intros -> -> ->. reflexivity.
Qed.

Lemma updateUserBook_missing_association_witness :
  updateUserBook demo_env 100 1 99 (Some 7) (Some 10) (Some 20) (Some "fine") demo_world
  = (Err (newError msg_not_found_for_user), mkWorld demo_db [EvStore OpFindOne])
  /\ updateUserBook demo_env 100 1 99 (Some 11) (Some 10) (Some 20) (Some "fine") demo_world
  = (Err (newError msg_rating), demo_world).
Proof.
  assert (Hno : no_association (db demo_world) 1 99).
  { apply (bool_decide_unpack _). vm_compute. exact I. }
  split.
  - apply (updateUserBook_missing_association demo_env 100 1 99 (Some 7)
             (Some 10) (Some 20) (Some "fine") demo_world Hno); reflexivity.
  - apply (updateUserBook_missing_association demo_env 100 1 99 (Some 11)
             (Some 10) (Some 20) (Some "fine") demo_world Hno); reflexivity.
Defined.

(** ** C7: [deleteBookFromUser] *)

(** C7. When the store answers, [deleteBookFromUser u a] removes exactly
    the rows that are association [a] of user [u] and touches nothing
    else.  If there is such a row the call succeeds; if there is none
    (the id is unknown, or belongs to another user) the call rejects with
    "Book not found" and the store is unchanged. *)
Theorem deleteBookFromUser_scoped E u a w :
  fault E (trace w) OpDestroy = None ->
  let res := deleteBookFromUser E u a w in
  usersBooks (db (snd res))
  = filter (fun r => ~ (userId r = u /\ id r = a)) (usersBooks (db w))
  /\ users (db (snd res)) = users (db w)
  /\ books (db (snd res)) = books (db w)
  /\ nextId (db (snd res)) = nextId (db w)
  /\ (Exists (fun r => userId r = u /\ id r = a) (usersBooks (db w)) ->
      fst res = Ok tt)
  /\ (no_association (db w) u a ->
      fst res = Err (newError msg_not_found) /\ db (snd res) = db w).
Proof.
  intros Hfault. unfold deleteBookFromUser, UsersBooks_destroy. run.
  rewrite Hfault. run.
  set (wh := mkWhere (Some a) (Some u) None).
  assert (Hrows : filter (fun r => matches wh r = false) (usersBooks (db w))
                  = filter (fun r => ~ (userId r = u /\ id r = a)) (usersBooks (db w))).
  { apply list_filter_iff. intros r. unfold wh. rewrite <- matches_id_user.
    destruct (matches _ r); intuition congruence. }
  destruct (length (filter (fun r => matches wh r = true) (usersBooks (db w))) =? 0)%nat
    eqn:Hlen; cbn [fst snd db usersBooks users books nextId surfaced newError].
  - split; [exact Hrows|]. do 3 (split; [reflexivity|]). split.
    + intros Hex. exfalso. apply Nat.eqb_eq, nil_length_inv in Hlen.
      apply Exists_exists in Hex as (r & Hin & Hr).
      assert (Hin' : r ∈ filter (fun r => matches wh r = true) (usersBooks (db w))).
      { apply list_elem_of_filter. split; [|exact Hin].
        unfold wh. apply matches_id_user. exact Hr. }
      rewrite Hlen in Hin'. inversion Hin'.
    + intros Hno. split; [reflexivity|].
      rewrite (filter_none_all (matches wh)) by (apply no_association_filter, Hno).
      destruct w as [[] ?]; reflexivity.
  - split; [exact Hrows|]. do 3 (split; [reflexivity|]). split.
    + intros _. reflexivity.
    + intros Hno. exfalso. apply Nat.eqb_neq in Hlen. apply Hlen.
      unfold wh. rewrite (no_association_filter _ _ _ Hno). reflexivity.
Qed.

Lemma deleteBookFromUser_scoped_witness :
  fst (deleteBookFromUser demo_env 1 2 demo_world) = Err (newError msg_not_found)
  /\ db (snd (deleteBookFromUser demo_env 1 2 demo_world)) = demo_db.
Proof.
  apply (deleteBookFromUser_scoped demo_env 1 2 demo_world eq_refl).
  apply (bool_decide_unpack _). vm_compute. exact I.
Defined.

(** ** The two paths of [addBookToUser] *)

Lemma not_yet_added_filter d u b :
  not_yet_added d u b ->
  filter (fun r => matches (mkWhere None (Some u) (Some b)) r = true) (usersBooks d) = [].
Proof.
  unfold not_yet_added. induction 1 as [|r l Hr _ IH]; [reflexivity|].
  rewrite filter_cons, decide_False; [exact IH|].
  rewrite matches_user_book. exact Hr.
Qed.

Lemma fresh_id_filter (rows : list UsersBooks) (k : Z) :
  Forall (fun r => id r < k) rows ->
  filter (fun r => matches (mkWhere (Some k) None None) r = true) rows = [].
Proof.
  induction 1 as [|r l Hr _ IH]; [reflexivity|].
  rewrite filter_cons, decide_False; [exact IH|].
  rewrite matches_id. lia.
Qed.

Lemma filter_singleton_true {A} (P : A -> Prop) `{forall x, Decision (P x)} (x : A) :
  P x -> filter P [x] = [x].
Proof. intros HP. cbn. rewrite decide_True by exact HP. reflexivity. Qed.

(** The creating path: every check passes and the pair is new. *)
Lemma addBookToUser_fresh E now u b bk r ds df n imp w :
  reliable E ->
  wf (db w) ->
  u ∈ users (db w) ->
  books (db w) !! b = Some bk ->
  not_yet_added (db w) u b ->
  add_accepts now r ds df n = true ->
  let created :=
    mkUsersBooks (nextId (db w)) u b (rating_or_null r) ds df (notes_or_null n) imp in
  addBookToUser E now u b r ds df n imp w
  = (Ok (Some (WithBook (mkUsersBooksType created (Some bk)))),
     mkWorld (mkDB (users (db w)) (books (db w)) (usersBooks (db w) ++ [created])
                (nextId (db w) + 1))
       (trace w ++ [EvStore OpBookFindByPk; EvStore OpFindOne;
                    EvStore OpCreate; EvStore OpFindOne])).
Proof.
  intros Hrel Hwf Hu Hbk Hnew Hacc created.
  unfold add_accepts in Hacc.
  repeat (apply andb_true_iff in Hacc as [Hacc ?]).
  repeat match goal with
         | H : negb _ = true |- _ => apply negb_true_iff in H
         | H : bool_decide _ = true |- _ => apply bool_decide_eq_true in H
         end.
  unfold addBookToUser.
  repeat match goal with H : _ = false |- _ => rewrite H end.
  unfold Book_findByPk, UsersBooks_findOne, UsersBooks_create,
    UsersBooks_findOne_include. run.
  rewrite !Hrel. run. rewrite Hbk. run. rewrite !Hrel. run.
  rewrite (not_yet_added_filter _ _ _ Hnew). cbn [head]. run.
  rewrite !Hrel. cbn [v_userRating v_userNotes v_dateStarted v_dateFinished].
  repeat match goal with H : _ = None |- _ => rewrite H end.
  cbn [all_failures].
  rewrite bool_decide_eq_true_2 by exact Hu. cbn [negb].
  run. rewrite Hbk. rewrite bool_decide_eq_true_2 by eauto. cbn [negb]. run.
  rewrite !Hrel. run. cbn [usersBooks id].
  rewrite filter_app, (fresh_id_filter _ _ (wf_ids_below _ Hwf)).
  rewrite filter_singleton_true by (apply matches_id; reflexivity).
  cbn [app head fmap option_fmap option_map include_book books bookId row].
  fold created.
  unfold include_book. cbn [books bookId]. subst created. cbn [bookId].
  rewrite Hbk.
  rewrite <- !app_assoc. reflexivity.
Qed.

(** The idempotent path: the pair is there already. *)
Lemma addBookToUser_existing E now u b bk existing r ds df n imp w :
  reliable E ->
  books (db w) !! b = Some bk ->
  head (filter (fun x => matches (mkWhere None (Some u) (Some b)) x = true)
          (usersBooks (db w))) = Some existing ->
  rating_above_10 r = false ->
  both_and_after ds df = false ->
  set_and_after ds now = false ->
  addBookToUser E now u b r ds df n imp w
  = (Ok (Some (Plain existing)),
     mkWorld (db w) (trace w ++ [EvStore OpBookFindByPk; EvStore OpFindOne])).
Proof.
  intros Hrel Hbk Hhead. unfold addBookToUser. intros -> -> ->.
  unfold Book_findByPk, UsersBooks_findOne. run.
  rewrite !Hrel. run. rewrite Hbk. run. rewrite !Hrel. run.
  rewrite Hhead. rewrite <- !app_assoc. reflexivity.
Qed.

(** What [add_accepts] lets through: a rating that is absent or within
    0..10, dates in order and not in the future, notes of at most 1000
    characters. *)
Lemma add_accepts_iff now r ds df n :
  add_accepts now r ds df n = true <->
  (forall x, r = Some x -> 0 <= x <= 10)
  /\ (forall s f, ds = Some s -> df = Some f -> s <= f)
  /\ (forall s, ds = Some s -> s <= now)
  /\ (forall s, n = Some s -> (String.length s <= 1000)%nat).
Proof.
  unfold add_accepts.
  rewrite !andb_true_iff, !negb_true_iff, !bool_decide_eq_true.
  assert (Hr : rating_above_10 r = false
               /\ validate_userRating (rating_or_null r) = None
               <-> forall x, r = Some x -> 0 <= x <= 10).
  { destruct r as [x|]; cbn; [|intuition discriminate].
    destruct (Z.eqb_spec x 0) as [->|Hx0]; cbn.
    - split; [intros _ y [= <-]; lia | intros _; split; reflexivity].
    - destruct (Z.ltb_spec 10 x), (Z.ltb_spec x 1); split;
        try (intros [? ?]; discriminate);
        try (intros Hx; specialize (Hx x eq_refl); lia);
        try (intros _ y [= <-]; lia); try (intros _; split; reflexivity). }
  assert (Hd : both_and_after ds df = false
               <-> forall s f, ds = Some s -> df = Some f -> s <= f).
  { destruct ds as [s|], df as [f|]; cbn; try (intuition discriminate).
    rewrite Z.ltb_ge. split; [intros ? ? ? [= <-] [= <-]; lia | eauto]. }
  assert (Hp : set_and_after ds now = false <-> forall s, ds = Some s -> s <= now).
  { destruct ds as [s|]; cbn; [|intuition discriminate].
    rewrite Z.ltb_ge. split; [intros ? ? [= <-]; lia | eauto]. }
  assert (Hn : validate_userNotes (notes_or_null n) = None
               <-> forall s, n = Some s -> (String.length s <= 1000)%nat).
  { destruct n as [s|]; cbn; [|intuition discriminate].
    destruct (Nat.eqb_spec (String.length s) 0) as [H0|H0]; cbn.
    - split; [intros _ ? [= <-]; lia | reflexivity].
    - destruct (Z.leb_spec 1 (Z.of_nat (String.length s))),
        (Z.leb_spec (Z.of_nat (String.length s)) 1000); cbn; split;
        try discriminate; try reflexivity;
        try (intros _ ? [= <-]; lia);
        try (intros Hs; specialize (Hs s eq_refl); lia). }
  tauto.
Qed.

(** ** C2: [addBookToUser] twice on the same pair *)

(** C2. Take a store that answers, a user and a book that exist and are
    not yet associated, and a payload the service and the model accept.
    The first [addBookToUser] succeeds and appends one row; a second call
    on the same pair, with any payload that passes the three checks of
    the service, succeeds with that same row (hence the same id), calls
    the store only to read ([findByPk], [findOne]) and leaves it
    unchanged: the values of the second payload are not written, and the
    pair has exactly one row. *)
Theorem addBookToUser_idempotent E u b bk w
    now1 r1 ds1 df1 n1 imp1 now2 r2 ds2 df2 n2 imp2 :
  reliable E ->
  wf (db w) ->
  u ∈ users (db w) ->
  books (db w) !! b = Some bk ->
  not_yet_added (db w) u b ->
  add_accepts now1 r1 ds1 df1 n1 = true ->
  rating_above_10 r2 = false ->
  both_and_after ds2 df2 = false ->
  set_and_after ds2 now2 = false ->
  exists created w1 w2,
    addBookToUser E now1 u b r1 ds1 df1 n1 imp1 w
    = (Ok (Some (WithBook (mkUsersBooksType created (Some bk)))), w1)
    /\ addBookToUser E now2 u b r2 ds2 df2 n2 imp2 w1
       = (Ok (Some (Plain created)), w2)
    /\ usersBooks (db w1) = usersBooks (db w) ++ [created]
    /\ db w2 = db w1
    /\ trace w2 = trace w1 ++ [EvStore OpBookFindByPk; EvStore OpFindOne]
    /\ filter (fun x => userId x = u /\ bookId x = b) (usersBooks (db w2))
       = [created].
Proof.
  intros Hrel Hwf Hu Hbk Hnew Hacc Hr2 Hd2 Hp2.
  pose proof (addBookToUser_fresh E now1 u b bk r1 ds1 df1 n1 imp1 w
                Hrel Hwf Hu Hbk Hnew Hacc) as H1.
  cbv zeta in H1.
  set (created := mkUsersBooks (nextId (db w)) u b (rating_or_null r1) ds1 df1
                    (notes_or_null n1) imp1) in *.
  set (w1 := mkWorld _ _) in H1.
  assert (Hfilter : filter (fun x => matches (mkWhere None (Some u) (Some b)) x = true)
                      (usersBooks (db w1)) = [created]).
  { unfold w1. cbn [db usersBooks].
    rewrite filter_app, (not_yet_added_filter _ _ _ Hnew).
    apply filter_singleton_true. apply matches_user_book. split; reflexivity. }
  assert (H2 : addBookToUser E now2 u b r2 ds2 df2 n2 imp2 w1
               = (Ok (Some (Plain created)),
                  mkWorld (db w1)
                    (trace w1 ++ [EvStore OpBookFindByPk; EvStore OpFindOne]))).
  { apply (addBookToUser_existing E now2 u b bk created); auto.
    rewrite Hfilter. reflexivity. }
  exists created, w1, (mkWorld (db w1) (trace w1 ++ [EvStore OpBookFindByPk; EvStore OpFindOne])).
  split; [exact H1|]. split; [exact H2|].
  split; [reflexivity|]. split; [reflexivity|]. split; [reflexivity|].
  cbn [db]. rewrite <- Hfilter. apply list_filter_iff.
  intros x. symmetry. apply matches_user_book.
Qed.

Lemma addBookToUser_idempotent_witness :
  exists created w1 w2,
    addBookToUser demo_env 100 1 5 (Some 8) (Some 10) (Some 20) (Some "good") false
      demo_world
    = (Ok (Some (WithBook (mkUsersBooksType created
                             (Some (mkBook 5 "volumes/five" JNull))))), w1)
    /\ addBookToUser demo_env 200 1 5 (Some 3) None None (Some "changed my mind") true w1
       = (Ok (Some (Plain created)), w2)
    /\ usersBooks (db w1) = usersBooks (db demo_world) ++ [created]
    /\ db w2 = db w1
    /\ trace w2 = trace w1 ++ [EvStore OpBookFindByPk; EvStore OpFindOne]
    /\ filter (fun x => userId x = 1 /\ bookId x = 5) (usersBooks (db w2))
       = [created].
Proof.
  apply (addBookToUser_idempotent demo_env 1 5 (mkBook 5 "volumes/five" JNull)
           demo_world 100 (Some 8) (Some 10) (Some 20) (Some "good") false
           200 (Some 3) None None (Some "changed my mind") true).
  - exact demo_env_reliable.
  - exact demo_db_wf.
  - apply (bool_decide_unpack _). vm_compute. exact I.
  - vm_compute. reflexivity.
  - apply (bool_decide_unpack _). vm_compute. exact I.
  - vm_compute. reflexivity.
  - reflexivity.
  - reflexivity.
  - reflexivity.
Defined.

(** ** C9: a rating of 0 on creation *)

(** C9. When [addBookToUser] is given the rating 0 and goes through to
    the creation of the row (store answering, user and book present,
    pair new, dates and notes accepted), the row appended to the store,
    which is also the row returned, has no rating: [0] is falsy, so
    [userRating ? userRating : null] stores [null]. *)
Theorem addBookToUser_zero_rating_is_null E now u b bk ds df n imp w :
  reliable E ->
  wf (db w) ->
  u ∈ users (db w) ->
  books (db w) !! b = Some bk ->
  not_yet_added (db w) u b ->
  add_accepts now (Some 0) ds df n = true ->
  exists created,
    userRating created = None
    /\ fst (addBookToUser E now u b (Some 0) ds df n imp w)
       = Ok (Some (WithBook (mkUsersBooksType created (Some bk))))
    /\ usersBooks (db (snd (addBookToUser E now u b (Some 0) ds df n imp w)))
       = usersBooks (db w) ++ [created].
Proof.
  intros Hrel Hwf Hu Hbk Hnew Hacc.
  rewrite (addBookToUser_fresh E now u b bk (Some 0) ds df n imp w
             Hrel Hwf Hu Hbk Hnew Hacc).
  eexists. split; [|split; reflexivity]. reflexivity.
Qed.

Lemma addBookToUser_zero_rating_is_null_witness :
  exists created,
    userRating created = None
    /\ fst (addBookToUser demo_env 100 1 5 (Some 0) None None None false demo_world)
       = Ok (Some (WithBook (mkUsersBooksType created
                               (Some (mkBook 5 "volumes/five" JNull)))))
    /\ usersBooks (db (snd (addBookToUser demo_env 100 1 5 (Some 0) None None None
                              false demo_world)))
       = usersBooks (db demo_world) ++ [created].
Proof.
  apply (addBookToUser_zero_rating_is_null demo_env 100 1 5
           (mkBook 5 "volumes/five" JNull) None None None false demo_world).
  - exact demo_env_reliable.
  - exact demo_db_wf.
  - apply (bool_decide_unpack _). vm_compute. exact I.
  - vm_compute. reflexivity.
  - apply (bool_decide_unpack _). vm_compute. exact I.
  - vm_compute. reflexivity.
Defined.

(** ** The callback of [getBooksForUser], in closed form *)

Section ListClosedForm.
Variable E : Env.

Lemma with_books_same d : with_books d (books d) = d.
Proof. destruct d; reflexivity. Qed.

Hypothesis Hrel : reliable E.

Lemma withDetails_closed j w :
  withDetails E j w
  = (outcome_of E j,
     mkWorld (with_books (db w) (books_after E (books (db w)) j))
       (trace w ++ events_of E j)).
Proof.
  unfold withDetails, outcome_of, events_of, books_after.
  destruct (book j) as [bk|].
  - destruct (needsRefresh (bookDetails bk)).
    + unfold getFromBookQuickLink, Book_update. run.
      destruct (provider E (quickLink bk)) as [t|d]; run.
      * rewrite with_books_same. reflexivity.
      * rewrite Hrel. run. rewrite <- app_assoc. reflexivity.
    + run. rewrite with_books_same, app_nil_r. destruct w; reflexivity.
  - run. rewrite with_books_same, app_nil_r. destruct w; reflexivity.
Qed.

Lemma settle_all_closed l w :
  settle_all (withDetails E) l w
  = (map (outcome_of E) l,
     mkWorld (with_books (db w) (fold_left (books_after E) l (books (db w))))
       (trace w ++ flat_map (events_of E) l)).
Proof.
  revert w. induction l as [|j l IH]; intros w.
  - cbn. rewrite with_books_same, app_nil_r. destruct w; reflexivity.
  - cbn [settle_all]. rewrite withDetails_closed, IH. cbn [db trace].
    cbn [map flat_map fold_left]. rewrite <- app_assoc.
    destruct (db w); reflexivity.
Qed.

Lemma getBooksForUser_closed u w :
  let l := associations_of (db w) u in
  getBooksForUser E u w
  = (match all_fulfilled (map (outcome_of E) l) with
     | Ok out => Ok out
     | Err t => Err (surfaced t)
     end,
     mkWorld (with_books (db w) (fold_left (books_after E) l (books (db w))))
       (trace w ++ EvStore OpFindAll :: flat_map (events_of E) l)).
Proof.
  intros l. unfold getBooksForUser, UsersBooks_findAll, Promise_all_map. run.
  rewrite Hrel. run. fold (associations_of (db w) u). fold l.
  rewrite settle_all_closed. cbn [db trace].
  rewrite <- app_assoc. cbn [app].
  destruct (all_fulfilled (map (outcome_of E) l)); reflexivity.
Qed.

End ListClosedForm.

(** ** Cache validity *)

Lemma needsRefresh_false_iff bd : needsRefresh bd = false <-> valid_cache bd.
Proof.
  unfold needsRefresh, valid_cache, volumeInfo_title.
  rewrite orb_false_iff, !negb_false_iff. split.
  - intros [_ Ht]. destruct bd as [| | | | |o]; cbn in Ht; try discriminate.
    destruct (obj_get "volumeInfo" o) as [vi|] eqn:Hvi; [|discriminate].
    destruct (prop "title" vi) as [t|] eqn:Htitle; [|discriminate].
    exists o, vi, t. auto.
  - intros (o & vi & t & -> & Hvi & Htitle & Ht). cbn.
    rewrite Hvi, Htitle. auto.
Qed.

Lemma truthy_title_string s : truthy (JStr s) = true <-> s <> EmptyString.
Proof.
  cbn. rewrite negb_true_iff. destruct (String.eqb_spec s EmptyString); intuition congruence.
Qed.

(** ** The trace and the books after a list *)

Lemma fetches_app t1 t2 : fetches (t1 ++ t2) = fetches t1 ++ fetches t2.
Proof.
  induction t1 as [|[op|link] t1 IH]; cbn; [reflexivity|exact IH|].
  f_equal. exact IH.
Qed.

Lemma omap_book_cons (j : UsersBooksType) (l : list UsersBooksType) :
  omap book (j :: l)
  = match book j with Some bk => bk :: omap book l | None => omap book l end.
Proof. reflexivity. Qed.

Section ListProperties.
Variable E : Env.

Lemma fetches_events l :
  fetches (flat_map (events_of E) l) = map quickLink (misses l).
Proof.
  unfold misses. induction l as [|j l IH]; [reflexivity|].
  cbn [flat_map]. rewrite omap_book_cons, fetches_app, IH. unfold events_of.
  destruct (book j) as [bk|]; [|reflexivity].
  rewrite filter_cons.
  destruct (needsRefresh (bookDetails bk)) eqn:Hbk.
  - rewrite decide_True by reflexivity. cbn.
    destruct (provider E (quickLink bk)); reflexivity.
  - rewrite decide_False by discriminate. reflexivity.
Qed.

Lemma no_miss_no_effect l m :
  misses l = [] ->
  fold_left (books_after E) l m = m /\ flat_map (events_of E) l = [].
Proof.
  unfold misses. revert m. induction l as [|j l IH]; intros m Hl; [split; reflexivity|].
  rewrite omap_book_cons in Hl. cbn [fold_left flat_map].
  unfold books_after at 2, events_of at 1.
  destruct (book j) as [bk|].
  - rewrite filter_cons in Hl.
    destruct (needsRefresh (bookDetails bk)) eqn:Hbk.
    + rewrite decide_True in Hl by reflexivity. discriminate.
    + rewrite decide_False in Hl by discriminate. apply IH. exact Hl.
  - apply IH. exact Hl.
Qed.

(** ** What the refreshes do to the table of books *)

Section Tracking.
Variable m0 : gmap Z Book.

Lemma books_after_refreshed_mono m j k :
  snapshot_of m0 j -> refreshed E m0 m k -> refreshed E m0 (books_after E m j) k.
Proof.
  intros Hj (bk & d & H0 & Hstale & Hd & Hm). unfold books_after.
  destruct (book j) as [bk'|] eqn:Hbook; [|exists bk, d; auto].
  destruct (needsRefresh (bookDetails bk')) eqn:Hstale'; [|exists bk, d; auto].
  destruct (provider E (quickLink bk')) as [t|d'] eqn:Hd'; [exists bk, d; auto|].
  exists bk, d. repeat split; auto.
  destruct (decide (book_id bk' = k)) as [<-|Hne].
  - rewrite (Hj bk' Hbook) in H0. injection H0 as ->.
    rewrite Hd in Hd'. injection Hd' as ->.
    rewrite lookup_alter_eq, Hm. reflexivity.
  - rewrite lookup_alter_ne by exact Hne. exact Hm.
Qed.

Lemma books_after_refreshed_here m j bk d :
  snapshot_of m0 j -> tracks E m0 m ->
  book j = Some bk ->
  needsRefresh (bookDetails bk) = true ->
  provider E (quickLink bk) = inr d ->
  refreshed E m0 (books_after E m j) (book_id bk).
Proof.
  intros Hj Hm Hbook Hstale Hd.
  destruct (Hm (book_id bk)) as [Hsame|Href].
  - exists bk, d. repeat split; auto.
    unfold books_after. rewrite Hbook, Hstale, Hd.
    rewrite lookup_alter_eq, Hsame, (Hj bk Hbook). reflexivity.
  - apply books_after_refreshed_mono; assumption.
Qed.

Lemma books_after_tracks m j :
  snapshot_of m0 j -> tracks E m0 m -> tracks E m0 (books_after E m j).
Proof.
  intros Hj Hm k.
  destruct (Hm k) as [Hsame|Href].
  - unfold books_after.
    destruct (book j) as [bk|] eqn:Hbook; [|left; exact Hsame].
    destruct (needsRefresh (bookDetails bk)) eqn:Hstale; [|left; exact Hsame].
    destruct (provider E (quickLink bk)) as [t|d] eqn:Hd; [left; exact Hsame|].
    destruct (decide (book_id bk = k)) as [<-|Hne].
    + right. exists bk, d. repeat split; auto.
      rewrite lookup_alter_eq, Hsame, (Hj bk Hbook). reflexivity.
    + left. rewrite lookup_alter_ne by exact Hne. exact Hsame.
  - right. apply books_after_refreshed_mono; assumption.
Qed.

Lemma fold_tracks l m :
  Forall (snapshot_of m0) l -> tracks E m0 m -> tracks E m0 (fold_left (books_after E) l m).
Proof.
  intros Hl. revert m. induction Hl as [|j l Hj _ IH]; intros m Hm; [exact Hm|].
  cbn. apply IH. apply books_after_tracks; assumption.
Qed.

Lemma fold_refreshed_mono l m k :
  Forall (snapshot_of m0) l -> refreshed E m0 m k ->
  refreshed E m0 (fold_left (books_after E) l m) k.
Proof.
  intros Hl. revert m. induction Hl as [|j l Hj _ IH]; intros m Hm; [exact Hm|].
  cbn. apply IH. apply books_after_refreshed_mono; assumption.
Qed.

Lemma fold_refreshed l m j bk d :
  Forall (snapshot_of m0) l -> tracks E m0 m ->
  j ∈ l ->
  book j = Some bk ->
  needsRefresh (bookDetails bk) = true ->
  provider E (quickLink bk) = inr d ->
  refreshed E m0 (fold_left (books_after E) l m) (book_id bk).
Proof.
  intros Hl. revert m.
  induction Hl as [|j' l Hj' Hl IH]; intros m Hm Hin Hbook Hstale Hd.
  - inversion Hin.
  - cbn. apply elem_of_cons in Hin as [->|Hin].
    + apply fold_refreshed_mono; [exact Hl|].
      eapply books_after_refreshed_here; eassumption.
    + apply IH; auto. apply books_after_tracks; assumption.
Qed.

Lemma tracks_refl : tracks E m0 m0.
Proof. intros k. left. reflexivity. Qed.

End Tracking.

Lemma associations_snapshot d u :
  wf d -> Forall (snapshot_of (books d)) (associations_of d u).
Proof.
  intros Hwf. unfold associations_of. apply Forall_map, Forall_forall.
  intros r _ bk Hbk. cbn in Hbk.
  pose proof (wf_book_keys d Hwf) as Hkeys.
  rewrite <- (Hkeys _ _ Hbk) in Hbk. exact Hbk.
Qed.

Lemma all_fulfilled_Forall2 {A B} (f : A -> Outcome B) l out :
  all_fulfilled (map f l) = Ok out -> Forall2 (fun x y => f x = Ok y) l out.
Proof.
  revert out. induction l as [|x l IH]; intros out; cbn.
  - intros [= <-]. constructor.
  - destruct (f x) as [y|t] eqn:Hx; [|discriminate].
    destruct (all_fulfilled (map f l)) as [ys|t]; [|discriminate].
    intros [= <-]. constructor; auto.
Qed.

End ListProperties.

Lemma misses_nil (l : list UsersBooksType) :
  (forall j bk, j ∈ l -> book j = Some bk -> needsRefresh (bookDetails bk) = false) ->
  misses l = [].
Proof.
  unfold misses. induction l as [|j l IH]; intros H; [reflexivity|].
  rewrite omap_book_cons.
  assert (Hl : filter (fun bk => needsRefresh (bookDetails bk) = true) (omap book l) = []).
  { apply IH. intros j' bk Hin. apply H. right. exact Hin. }
  destruct (book j) as [bk|] eqn:Hbook; [|exact Hl].
  rewrite filter_cons, decide_False; [exact Hl|].
  rewrite (H j bk); [discriminate|left|exact Hbook].
Qed.

Lemma elem_of_associations d u j :
  j ∈ associations_of d u ->
  exists r, r ∈ usersBooks d /\ userId r = u /\ j = include_book d r.
Proof.
  unfold associations_of. rewrite list_elem_of_In, in_map_iff.
  intros (r & <- & Hr). apply list_elem_of_In, list_elem_of_filter in Hr as [Hm Hr].
  exists r. split; [exact Hr|]. split; [|reflexivity].
  apply matches_user. exact Hm.
Qed.

Lemma associations_elem_of d u r :
  r ∈ usersBooks d -> userId r = u -> include_book d r ∈ associations_of d u.
Proof.
  intros Hr Hu. unfold associations_of. apply list_elem_of_In, in_map.
  apply list_elem_of_In, list_elem_of_filter. split; [|exact Hr].
  apply matches_user. exact Hu.
Qed.

(** A successful list has one entry per association, each the outcome of
    its callback. *)
Lemma getBooksForUser_entries E u w :
  reliable E ->
  forall out,
    fst (getBooksForUser E u w) = Ok out ->
    Forall2 (fun j e => outcome_of E j = Ok e) (associations_of (db w) u) out.
Proof.
  intros Hrel out Hout.
  rewrite (getBooksForUser_closed E Hrel u w) in Hout. cbn [fst] in Hout.
  apply all_fulfilled_Forall2.
  destruct (all_fulfilled (map (outcome_of E) (associations_of (db w) u))); congruence.
Qed.

(** A failed list reports the rejection of one of its callbacks. *)
Lemma getBooksForUser_rejection E u w :
  reliable E ->
  forall e,
    fst (getBooksForUser E u w) = Err e ->
    exists j t,
      j ∈ associations_of (db w) u /\ outcome_of E j = Err t /\ e = surfaced t.
Proof.
  intros Hrel e He.
  rewrite (getBooksForUser_closed E Hrel u w) in He. cbn [fst] in He.
  induction (associations_of (db w) u) as [|j l IH]; cbn in He; [discriminate|].
  destruct (outcome_of E j) as [y|t] eqn:Hj.
  - destruct (all_fulfilled (map (outcome_of E) l)) as [ys|t] eqn:Hl; [discriminate|].
    destruct (IH He) as (j' & t' & Hin & Hj' & ->).
    exists j', t'. split; [right; exact Hin|auto].
  - injection He as <-. exists j, t. split; [left|auto].
Qed.

Lemma lookup_association_found d u a r :
  wf d -> r ∈ usersBooks d -> userId r = u -> id r = a ->
  lookup_association d u a = Some r.
Proof.
  intros Hwf Hin Hu Ha. unfold lookup_association.
  pose proof (wf_ids_nodup d Hwf) as Hnd.
  induction (usersBooks d) as [|x l IH]; [inversion Hin|].
  cbn in Hnd. apply NoDup_cons in Hnd as [Hx Hnd].
  rewrite filter_cons. apply elem_of_cons in Hin as [<-|Hin].
  - rewrite decide_True by (apply matches_id_user; auto). reflexivity.
  - rewrite decide_False; [apply IH; assumption|].
    rewrite matches_id_user. intros [_ Hxa]. apply Hx.
    apply list_elem_of_In, in_map_iff. exists r.
    split; [congruence|apply list_elem_of_In; exact Hin].
Qed.

Lemma elem_of_misses l bk :
  bk ∈ misses l <->
  needsRefresh (bookDetails bk) = true /\ exists j, j ∈ l /\ book j = Some bk.
Proof.
  unfold misses. rewrite list_elem_of_filter, list_elem_of_omap. reflexivity.
Qed.

(** On a well-formed store that answers, a list is rejected only because
    the provider failed on one of the misses. *)
Lemma getBooksForUser_rejection_is_provider E u w :
  reliable E -> wf (db w) ->
  forall e,
    fst (getBooksForUser E u w) = Err e ->
    exists bk t,
      bk ∈ misses (associations_of (db w) u)
      /\ provider E (quickLink bk) = inl t
      /\ e = surfaced t.
Proof.
  intros Hrel Hwf e He.
  destruct (getBooksForUser_rejection E u w Hrel e He) as (j & t & Hj & Hout & ->).
  pose proof Hj as Hj'.
  apply elem_of_associations in Hj' as (r & Hr & _ & Hjr).
  pose proof (wf_fk _ Hwf) as Hfk.
  destruct (proj1 (Forall_forall _ _) Hfk r Hr) as [_ [bk Hbk]].
  assert (Hbook : book j = Some bk) by (rewrite Hjr; exact Hbk).
  unfold outcome_of in Hout. rewrite Hbook in Hout.
  destruct (needsRefresh (bookDetails bk)) eqn:Hstale; [|discriminate].
  destruct (provider E (quickLink bk)) as [t'|d] eqn:Ht; [|discriminate].
  injection Hout as ->. exists bk, t. split; [|auto].
  apply elem_of_misses. eauto.
Qed.

(** And it succeeds when the provider answers on every miss. *)
Lemma getBooksForUser_succeeds E u w :
  reliable E -> wf (db w) ->
  (forall bk, bk ∈ misses (associations_of (db w) u) ->
              exists d, provider E (quickLink bk) = inr d) ->
  exists out, fst (getBooksForUser E u w) = Ok out.
Proof.
  intros Hrel Hwf Hanswers.
  destruct (fst (getBooksForUser E u w)) as [out|e] eqn:Hres; [eauto|].
  destruct (getBooksForUser_rejection_is_provider E u w Hrel Hwf e Hres)
    as (bk & t & Hbk & Ht & _).
  destruct (Hanswers bk Hbk) as [d Hd]. congruence.
Qed.

(** ** Objects *)

Lemma obj_get_set k k' v o :
  obj_get k (obj_set k' v o) = if String.eqb k k' then Some v else obj_get k o.
Proof.
  induction o as [|[k0 v0] o IH]; cbn.
  - destruct (String.eqb k k'); reflexivity.
  - destruct (String.eqb_spec k' k0) as [->|Hne]; cbn.
    + destruct (String.eqb k k0); reflexivity.
    + rewrite IH. destruct (String.eqb_spec k k0) as [->|]; [|reflexivity].
      destruct (String.eqb_spec k0 k'); [congruence|reflexivity].
Qed.

Lemma obj_get_absent k (o : Obj) : k ∉ map fst o -> obj_get k o = None.
Proof.
  induction o as [|[k0 v0] o IH]; cbn; [reflexivity|].
  intros Hk. apply not_elem_of_cons in Hk as [Hne Hk].
  destruct (String.eqb_spec k k0); [congruence|auto].
Qed.

(** [{ ...base, ...extra }] holds the values of [extra] and, for the keys
    [extra] does not have, those of [base]. *)
Lemma obj_get_spread k base extra :
  NoDup (map fst extra) ->
  obj_get k (obj_spread base extra)
  = match obj_get k extra with
    | Some v => Some v
    | None => obj_get k base
    end.
Proof.
  unfold obj_spread. revert base.
  induction extra as [|[k0 v0] extra IH]; intros base Hnd; [reflexivity|].
  cbn in Hnd. apply NoDup_cons in Hnd as [Hk0 Hnd].
  cbn [fold_left fst snd obj_get]. rewrite (IH _ Hnd), obj_get_set.
  destruct (String.eqb_spec k k0) as [->|Hne]; [|reflexivity].
  rewrite (obj_get_absent _ _ Hk0). reflexivity.
Qed.

(** ** C1: the list operation asks the provider on a cache miss only *)

(** C1. On a store that answers and respects its keys,
    [getBooksForUser u]
    - asks the provider once for each association of [u] whose book has
      a cache that is a miss, in the order of the rows, and for no other
      ([misses] keeps the books [b] with [needsRefresh (bookDetails b)],
      and a blob needs no refresh exactly when it is valid: an object
      whose [volumeInfo.title] is present and not empty);
    - when it succeeds, returns one entry per association, and for each
      miss the answer of the provider is by then stored on the Book row
      and is the [bookDetails] of the entry;
    - with no miss, asks the provider nothing and leaves the store as it
      is;
    - succeeds as soon as the provider answers on every miss;
    - and, after a successful call with a provider whose answers are
      valid metadata, a second call asks the provider nothing. *)
Theorem getBooksForUser_refreshes_on_miss E u w :
  reliable E ->
  wf (db w) ->
  let l := associations_of (db w) u in
  let res := getBooksForUser E u w in
  fetches (trace (snd res)) = fetches (trace w) ++ map quickLink (misses l)
  /\ (forall bd, needsRefresh bd = false <-> valid_cache bd)
  /\ (forall out, fst res = Ok out ->
        length out = length l
        /\ forall i j bk e,
            l !! i = Some j -> book j = Some bk -> out !! i = Some e ->
            ubd_row e = row j
            /\ (needsRefresh (bookDetails bk) = false ->
                ubd_book e = listed_book bk (bookDetails bk))
            /\ (needsRefresh (bookDetails bk) = true ->
                exists d,
                  provider E (quickLink bk) = inr d
                  /\ books (db (snd res)) !! book_id bk
                     = Some (set_bookDetails (JObj d) bk)
                  /\ ubd_book e = listed_book bk (JObj d)))
  /\ (misses l = [] ->
        snd res = mkWorld (db w) (trace w ++ [EvStore OpFindAll]))
  /\ ((forall bk, bk ∈ misses l -> exists d, provider E (quickLink bk) = inr d) ->
      exists out, fst res = Ok out)
  /\ (forall out, fst res = Ok out ->
        (forall link d, provider E link = inr d -> valid_cache (JObj d)) ->
        let res2 := getBooksForUser E u (snd res) in
        fetches (trace (snd res2)) = fetches (trace (snd res))
        /\ db (snd res2) = db (snd res)).
Proof.
  intros Hrel Hwf l res.
  pose proof (getBooksForUser_closed E Hrel u w) as Hres. cbv zeta in Hres.
  fold l in Hres. fold res in Hres.
  pose proof (associations_snapshot (db w) u Hwf) as Hsnap. fold l in Hsnap.
  pose proof (getBooksForUser_entries E u w Hrel) as Hok. fold l res in Hok.
  assert (Hpersist : forall out, fst res = Ok out ->
            forall j bk, j ∈ l -> book j = Some bk ->
              needsRefresh (bookDetails bk) = true ->
              exists d, provider E (quickLink bk) = inr d
                /\ books (db (snd res)) !! book_id bk
                   = Some (set_bookDetails (JObj d) bk)).
  { intros out Hout j bk Hin Hbook Hstale.
    apply list_elem_of_lookup in Hin as [i Hi].
    destruct (Forall2_lookup_l _ _ _ _ _ (Hok out Hout) Hi) as (e & _ & He).
    unfold outcome_of in He. rewrite Hbook, Hstale in He.
    destruct (provider E (quickLink bk)) as [t|d] eqn:Hd; [discriminate|].
    exists d. split; [reflexivity|].
    rewrite Hres. cbn [snd db with_books books].
    destruct (fold_refreshed E (books (db w)) l (books (db w)) j bk d Hsnap
                (tracks_refl E _) (list_elem_of_lookup_2 _ _ _ Hi) Hbook Hstale Hd)
      as (bk' & d' & H0 & _ & Hd' & Hm).
    rewrite (Forall_lookup_1 _ _ _ _ Hsnap Hi bk Hbook) in H0. injection H0 as <-.
    rewrite Hd in Hd'. injection Hd' as <-. exact Hm. }
  split; [|split; [|split; [|split; [|split]]]].
  - rewrite Hres. cbn [snd trace].
    rewrite fetches_app. cbn [fetches]. rewrite fetches_events. reflexivity.
  - exact needsRefresh_false_iff.
  - intros out Hout. split; [symmetry; exact (Forall2_length _ _ _ (Hok out Hout))|].
    intros i j bk e Hi Hbook He.
    pose proof (Forall2_lookup_lr _ _ _ _ _ _ (Hok out Hout) Hi He) as Hje.
    unfold outcome_of in Hje. rewrite Hbook in Hje.
    destruct (needsRefresh (bookDetails bk)) eqn:Hstale.
    + destruct (Hpersist out Hout j bk (list_elem_of_lookup_2 _ _ _ Hi) Hbook Hstale)
        as (d & Hd & Hm).
      rewrite Hd in Hje. injection Hje as <-.
      split; [reflexivity|]. split; [discriminate|].
      intros _. exists d. auto.
    + injection Hje as <-. split; [reflexivity|]. split; [reflexivity|discriminate].
  - intros Hnone. rewrite Hres. cbn [snd].
    destruct (no_miss_no_effect E l (books (db w)) Hnone) as [-> ->].
    rewrite with_books_same. reflexivity.
  - exact (getBooksForUser_succeeds E u w Hrel Hwf).
  - intros out Hout Hvalid res2.
    pose proof (getBooksForUser_closed E Hrel u (snd res)) as Hres2.
    cbv zeta in Hres2. fold res2 in Hres2.
    set (l2 := associations_of (db (snd res)) u) in *.
    assert (Hnone : misses l2 = []).
    { apply misses_nil. intros j2 bk2 Hin2 Hbook2.
      apply elem_of_associations in Hin2 as (r & Hr & Hu & ->).
      cbn [include_book book] in Hbook2.
      rewrite Hres in Hr, Hbook2. cbn [snd db with_books books usersBooks] in Hr, Hbook2.
      destruct (fold_tracks E (books (db w)) l (books (db w)) Hsnap
                  (tracks_refl E _) (bookId r)) as [Hsame|Href].
      - rewrite Hsame in Hbook2.
        destruct (needsRefresh (bookDetails bk2)) eqn:Hstale; [|reflexivity].
        pose proof (associations_elem_of (db w) u r Hr Hu) as Hin. fold l in Hin.
        destruct (Hpersist out Hout (include_book (db w) r) bk2 Hin Hbook2 Hstale)
          as (d & Hd & Hm).
        rewrite Hres in Hm. cbn [snd db with_books books] in Hm.
        pose proof (wf_book_keys _ Hwf) as Hkeys.
        rewrite (Hkeys _ _ Hbook2), Hsame, Hbook2 in Hm.
        injection Hm as Hm. rewrite Hm in Hstale. cbn [set_bookDetails bookDetails] in Hstale.
        pose proof (proj2 (needsRefresh_false_iff _) (Hvalid _ _ Hd)). congruence.
      - destruct Href as (bk & d & _ & _ & Hd & Hm).
        rewrite Hm in Hbook2. injection Hbook2 as <-.
        apply needsRefresh_false_iff. exact (Hvalid _ _ Hd). }
    rewrite Hres2. cbn [snd trace db].
    destruct (no_miss_no_effect E l2 (books (db (snd res))) Hnone) as [-> ->].
    rewrite with_books_same, fetches_app, app_nil_r. split; reflexivity.
Qed.

Lemma demo_provider_valid link d :
  provider demo_env link = inr d -> valid_cache (JObj d).
Proof.
  intros [= <-]. unfold valid_cache, demo_volume.
  eexists _, _, _. repeat split; reflexivity.
Qed.

Lemma getBooksForUser_refreshes_on_miss_witness :
  let res := getBooksForUser demo_env 2 demo_world in
  fetches (trace (snd res))
  = fetches (trace demo_world)
      ++ map quickLink (misses (associations_of (db demo_world) 2))
  /\ fetches (trace (snd res)) = ["volumes/five"]
  /\ fetches (trace (snd (getBooksForUser demo_env 2 (snd res))))
     = fetches (trace (snd res)).
Proof.
  pose proof (getBooksForUser_refreshes_on_miss demo_env 2 demo_world
                demo_env_reliable demo_db_wf) as (H1 & _ & _ & _ & _ & H5).
  split; [exact H1|]. split; [vm_compute; reflexivity|].
  eapply H5.
  - vm_compute. reflexivity.
  - exact demo_provider_valid.
Defined.

(** ** C6: the single read always asks the provider *)

(** C6. When the scoped lookup finds the association and its book,
    [getBookForUser] asks the provider for the book's link, once, whether
    the cached [bookDetails] is valid or not (nothing is assumed of it),
    and writes nothing to the store.  If the provider answers, the
    result is the row with, as [book], the book's columns overlaid with
    the answer: a key of the answer carries the answer's value, any other
    key the book's.  If the provider fails, the call rejects. *)
Theorem getBookForUser_always_fetches E u a w r bk :
  fault E (trace w) OpFindOne = None ->
  lookup_association (db w) u a = Some r ->
  books (db w) !! bookId r = Some bk ->
  let res := getBookForUser E u a w in
  snd res = mkWorld (db w) (trace w ++ [EvStore OpFindOne; EvFetch (quickLink bk)])
  /\ (forall d, provider E (quickLink bk) = inr d ->
        fst res = Ok (Some (mkUserBookDetails r (obj_spread (Book_toJSON bk) d)))
        /\ (NoDup (map fst d) ->
            forall k, obj_get k (obj_spread (Book_toJSON bk) d)
                      = match obj_get k d with
                        | Some v => Some v
                        | None => obj_get k (Book_toJSON bk)
                        end))
  /\ (forall t, provider E (quickLink bk) = inl t -> fst res = Err (surfaced t)).
Proof.
  intros Hfault Hfound Hbk res. subst res.
  unfold getBookForUser, UsersBooks_findOne_include, getFromBookQuickLink. run.
  rewrite Hfault. run.
  unfold lookup_association in Hfound. rewrite Hfound.
  cbn [fmap option_fmap option_map include_book book row]. rewrite Hbk. run.
  destruct (provider E (quickLink bk)) as [t|d]; cbn [fst snd];
    rewrite <- app_assoc; (split; [reflexivity|]); split.
  - intros d [=].
  - intros t' [= <-]. reflexivity.
  - intros d' [= <-]. split; [reflexivity|]. intros Hnd k.
    apply obj_get_spread. exact Hnd.
  - intros t [=].
Qed.

Lemma getBookForUser_always_fetches_witness :
  let res := getBookForUser demo_env 1 1 demo_world in
  needsRefresh (JObj (demo_volume "Six")) = false
  /\ snd res = mkWorld demo_db [EvStore OpFindOne; EvFetch "volumes/six"]
  /\ fst res
     = Ok (Some (mkUserBookDetails
                   (mkUsersBooks 1 1 6 (Some 8) None None None false)
                   (obj_spread
                      (Book_toJSON (mkBook 6 "volumes/six" (JObj (demo_volume "Six"))))
                      (demo_volume "volumes/six")))).
Proof.
  split; [reflexivity|].
  destruct (getBookForUser_always_fetches demo_env 1 1 demo_world
              (mkUsersBooks 1 1 6 (Some 8) None None None false)
              (mkBook 6 "volumes/six" (JObj (demo_volume "Six")))
              eq_refl eq_refl eq_refl) as (Hw & Hok & _).
  split; [exact Hw|].
  exact (proj1 (Hok (demo_volume "volumes/six") eq_refl)).
Defined.

(** ** C10: the shapes of the two reads *)

(** C10. For one and the same association, with a provider that answers
    [d]:
    - [getBookForUser] returns as [book] the spread of the book's columns
      and of [d]: every key of [d] is a top-level key of [book], and the
      [bookDetails] key still holds the cached column (when the
      provider's object has no key of that name);
    - every successful [getBooksForUser] has an entry for the association
      whose [book] is the three columns of the book, with the metadata
      (the cached blob, or [d] after a miss) nested under [bookDetails]
      and under no other key. *)
Theorem single_and_list_shapes E u a w r bk d :
  reliable E ->
  wf (db w) ->
  r ∈ usersBooks (db w) -> userId r = u -> id r = a ->
  books (db w) !! bookId r = Some bk ->
  provider E (quickLink bk) = inr d ->
  NoDup (map fst d) ->
  (exists e,
      fst (getBookForUser E u a w) = Ok (Some e)
      /\ ubd_row e = r
      /\ ubd_book e = obj_spread (Book_toJSON bk) d
      /\ (forall k v, obj_get k d = Some v -> obj_get k (ubd_book e) = Some v)
      /\ (obj_get "bookDetails" d = None ->
          obj_get "bookDetails" (ubd_book e) = Some (bookDetails bk)))
  /\ (forall out,
        fst (getBooksForUser E u w) = Ok out ->
        exists e,
          e ∈ out
          /\ ubd_row e = r
          /\ ubd_book e
             = [("id", JNum (book_id bk));
                ("quickLink", JStr (quickLink bk));
                ("bookDetails",
                 if needsRefresh (bookDetails bk) then JObj d else bookDetails bk)]
          /\ (forall k, k <> "id" -> k <> "quickLink" -> k <> "bookDetails" ->
              obj_get k (ubd_book e) = None)).
Proof.
  intros Hrel Hwf Hin Hu Ha Hbk Hd Hnd. split.
  - unfold getBookForUser, UsersBooks_findOne_include, getFromBookQuickLink. run.
    rewrite Hrel. run.
    pose proof (lookup_association_found _ _ _ _ Hwf Hin Hu Ha) as Hfound.
    unfold lookup_association in Hfound. rewrite Hfound.
    cbn [fmap option_fmap option_map include_book book row]. rewrite Hbk. run.
    rewrite Hd. cbn [fst]. eexists. split; [reflexivity|]. cbn [ubd_row ubd_book].
    split; [reflexivity|]. split; [reflexivity|]. split.
    + intros k v Hk. rewrite (obj_get_spread _ _ _ Hnd), Hk. reflexivity.
    + intros Hk. rewrite (obj_get_spread _ _ _ Hnd), Hk. reflexivity.
  - intros out Hout.
    pose proof (getBooksForUser_entries E u w Hrel out Hout) as Hall.
    pose proof (associations_elem_of _ _ _ Hin Hu) as Hj.
    apply list_elem_of_lookup in Hj as [i Hi].
    destruct (Forall2_lookup_l _ _ _ _ _ Hall Hi) as (e & He & Hje).
    exists e. split; [exact (list_elem_of_lookup_2 _ _ _ He)|].
    unfold outcome_of in Hje. cbn [include_book book row] in Hje.
    rewrite Hbk in Hje.
    assert (Hk : forall details k,
               k <> "id" -> k <> "quickLink" -> k <> "bookDetails" ->
               obj_get k (listed_book bk details) = None).
    { intros details k H1 H2 H3. cbn.
      destruct (String.eqb_spec k "id"); [congruence|].
      destruct (String.eqb_spec k "quickLink"); [congruence|].
      destruct (String.eqb_spec k "bookDetails"); [congruence|reflexivity]. }
    destruct (needsRefresh (bookDetails bk)).
    + rewrite Hd in Hje. injection Hje as <-. cbn [ubd_row ubd_book].
      split; [reflexivity|]. split; [reflexivity|]. apply Hk.
    + injection Hje as <-. cbn [ubd_row ubd_book].
      split; [reflexivity|]. split; [reflexivity|]. apply Hk.
Qed.

Lemma single_and_list_shapes_witness :
  (exists e,
      fst (getBookForUser demo_env 2 2 demo_world) = Ok (Some e)
      /\ obj_get "volumeInfo" (ubd_book e)
         = Some (JObj [("title", JStr "Title of volumes/five"); ("pageCount", JNum 310)])
      /\ obj_get "bookDetails" (ubd_book e) = Some JNull)
  /\ (exists e,
      fst (getBooksForUser demo_env 2 demo_world) = Ok [e]
      /\ obj_get "volumeInfo" (ubd_book e) = None
      /\ obj_get "bookDetails" (ubd_book e) = Some (JObj (demo_volume "volumes/five"))).
Proof.
  assert (Hin : mkUsersBooks 2 2 5 None None None (Some "to read") false
                ∈ usersBooks (db demo_world)).
  { cbn. right. left. }
  assert (Hnd : NoDup (map fst (demo_volume "volumes/five"))).
  { apply (bool_decide_unpack _). vm_compute. exact I. }
  destruct (single_and_list_shapes demo_env 2 2 demo_world _
              (mkBook 5 "volumes/five" JNull) (demo_volume "volumes/five")
              demo_env_reliable demo_db_wf Hin eq_refl eq_refl eq_refl eq_refl Hnd)
    as [(e & He & _ & _ & Hkeys & Hcached) Hlist].
  split.
  - exists e. split; [exact He|]. split.
    + apply Hkeys. reflexivity.
    + apply Hcached. reflexivity.
  - destruct (Hlist [mkUserBookDetails
                       (mkUsersBooks 2 2 5 None None None (Some "to read") false)
                       (listed_book (mkBook 5 "volumes/five" JNull)
                          (JObj (demo_volume "volumes/five")))])
      as (e' & He' & _ & Hbook & Hnone).
    + vm_compute. reflexivity.
    + exists e'. apply list_elem_of_singleton in He'. split; [rewrite He'; reflexivity|].
      split; [apply Hnone; discriminate|].
      rewrite Hbook. reflexivity.
Defined.

(** ** C8: what the caller sees of an upstream failure *)









(** * Further properties of the service *)

(** ** What an operation leaves as it is *)

Section Stable.
Variable R : World -> World -> Prop.
Hypothesis R_refl : forall w, R w w.
Hypothesis R_trans : forall a b c, R a b -> R b c -> R a c.

Lemma stable_ret {A} (a : A) : stable R (ret a).
Proof. intros w. apply R_refl. Qed.

Lemma stable_throw {A} (t : Thrown) : stable R (@throw A t).
Proof. intros w. apply R_refl. Qed.

Lemma stable_bind {A B} (m : M A) (k : A -> M B) :
  stable R m -> (forall a, stable R (k a)) -> stable R (bind m k).
Proof.
  intros Hm Hk w. unfold bind. specialize (Hm w).
  destruct (m w) as [[a|t] w']; cbn [snd] in *; [|exact Hm].
  eapply R_trans; [exact Hm|apply Hk].
Qed.

Lemma stable_try_catch {A} (m : M A) (h : Thrown -> M A) :
  stable R m -> (forall t, stable R (h t)) -> stable R (try_catch m h).
Proof.
  intros Hm Hh w. unfold try_catch. specialize (Hm w).
  destruct (m w) as [[a|t] w']; cbn [snd] in *; [exact Hm|].
  eapply R_trans; [exact Hm|apply Hh].
Qed.

Lemma stable_rethrow {A} (t : Thrown) : stable R (@rethrow A t).
Proof. apply stable_throw. Qed.

Lemma stable_Promise_all_map {A B} (f : A -> M B) (xs : list A) :
  (forall x, stable R (f x)) -> stable R (Promise_all_map f xs).
Proof.
  intros Hf w. unfold Promise_all_map.
  revert w. induction xs as [|x xs IH]; intros w; [apply R_refl|].
  cbn [settle_all]. specialize (Hf x w). specialize (IH (snd (f x w))).
  destruct (f x w) as [o w1]. cbn [snd] in *.
  destruct (settle_all f xs w1) as [os w2]. cbn [snd] in *.
  eapply R_trans; eassumption.
Qed.

(** [R] does not look at the calls on the store that the trace records. *)
Hypothesis R_call :
  forall w op, R w (mkWorld (db w) (trace w ++ [EvStore op])).

Variable E : Env.

Lemma stable_call op : stable R (call E op).
Proof.
  intros w. unfold call. destruct (fault E (trace w) op); apply R_call.
Qed.

Lemma stable_reader op {A} (f : DB -> A) :
  stable R (call E op ;; d <- getDB ;; ret (f d)).
Proof.
  apply stable_bind; [apply stable_call|]. intros _ w. apply R_refl.
Qed.

Lemma stable_getBookForUser :
  (forall link, stable R (getFromBookQuickLink E link)) ->
  forall u a, stable R (getBookForUser E u a).
Proof.
  intros Hfetch u a. apply stable_try_catch; [|apply @stable_rethrow].
  apply stable_bind; [apply (stable_reader OpFindOne)|].
  intros [j|]; [|apply stable_ret].
  destruct (book j); [|apply stable_throw].
  apply stable_bind; [apply Hfetch|]. intros; apply stable_ret.
Qed.

Lemma stable_getBooksForUser :
  (forall link, stable R (getFromBookQuickLink E link)) ->
  (forall b bd, stable R (Book_update E b bd)) ->
  forall u, stable R (getBooksForUser E u).
Proof.
  intros Hfetch Hupdate u. apply stable_try_catch; [|apply @stable_rethrow].
  apply stable_bind; [apply (stable_reader OpFindAll)|]. intros l.
  apply stable_Promise_all_map. intros j. unfold withDetails.
  destruct (book j) as [bk|]; [|apply stable_throw].
  apply stable_bind; [|intros; apply stable_ret].
  destruct (needsRefresh (bookDetails bk)); [|apply stable_ret].
  apply stable_bind; [apply Hfetch|]. intros d.
  apply stable_bind; [apply Hupdate|]. intros; apply stable_ret.
Qed.

Lemma stable_addBookToUser u :
  (forall b v imp, stable R (UsersBooks_create E u b v imp)) ->
  forall now b r ds df n imp, stable R (addBookToUser E now u b r ds df n imp).
Proof.
  intros Hcreate now b r ds df n imp. unfold addBookToUser.
  destruct (rating_above_10 r); [apply stable_throw|].
  destruct (both_and_after ds df); [apply stable_throw|].
  destruct (set_and_after ds now); [apply stable_throw|].
  apply stable_bind; [apply (stable_reader OpBookFindByPk)|].
  intros [bk|]; [|apply stable_throw].
  apply stable_try_catch; [|apply @stable_rethrow].
  apply stable_bind; [apply (stable_reader OpFindOne)|].
  intros [existing|]; [apply stable_ret|].
  apply stable_bind; [apply Hcreate|]. intros created.
  apply stable_bind; [apply (stable_reader OpFindOne)|].
  intros; apply stable_ret.
Qed.

Lemma stable_updateUserBook :
  (forall r v, stable R (UsersBooks_update E r v)) ->
  forall now u a r ds df n, stable R (updateUserBook E now u a r ds df n).
Proof.
  intros Hupdate now u a r ds df n. unfold updateUserBook.
  destruct (rating_out_of_range r); [apply stable_throw|].
  destruct (both_and_after ds df); [apply stable_throw|].
  destruct (set_and_after ds now); [apply stable_throw|].
  apply stable_try_catch; [|apply @stable_rethrow].
  apply stable_bind; [apply (stable_reader OpFindOne)|].
  intros [found|]; [|apply stable_throw].
  apply stable_bind; [apply Hupdate|]. intros _.
  apply (stable_reader OpFindOne).
Qed.

Lemma stable_deleteBookFromUser u a :
  stable R (UsersBooks_destroy E (mkWhere (Some a) (Some u) None)) ->
  stable R (deleteBookFromUser E u a).
Proof.
  intros Hdestroy. apply stable_try_catch; [|apply @stable_rethrow].
  apply stable_bind; [apply Hdestroy|]. intros n.
  destruct (n =? 0)%nat; [apply stable_throw|apply stable_ret].
Qed.

End Stable.

Lemma fetches_store_event t op : fetches (t ++ [EvStore op]) = fetches t.
Proof. rewrite fetches_app. cbn. apply app_nil_r. Qed.

Lemma same_book_but_details_refl b : same_book_but_details b b.
Proof. destruct b; cbn; auto. Qed.

Lemma same_book_but_details_trans a b c :
  same_book_but_details a b -> same_book_but_details b c ->
  same_book_but_details a c.
Proof.
  destruct a, b, c; cbn; try tauto. intros [-> ->] [-> ->]. auto.
Qed.

Lemma only_details_change_refl w : only_details_change w w.
Proof.
  repeat split. intros k. apply same_book_but_details_refl.
Qed.

Lemma only_details_change_trans a b c :
  only_details_change a b -> only_details_change b c -> only_details_change a c.
Proof.
  intros (H1 & H2 & H3 & H4) (H1' & H2' & H3' & H4').
  split; [congruence|]. split; [congruence|]. split; [congruence|].
  intros k. eapply same_book_but_details_trans; [apply H4|apply H4'].
Qed.

Lemma only_details_fetch E link :
  stable only_details_change (getFromBookQuickLink E link).
Proof.
  intros w. unfold getFromBookQuickLink. run.
  destruct (provider E link); cbn [snd]; repeat split;
    intros k; apply same_book_but_details_refl.
Qed.

Lemma only_details_Book_update E b bd :
  stable only_details_change (Book_update E b bd).
Proof.
  intros w. unfold Book_update. run.
  destruct (fault E (trace w) OpBookUpdate); cbn [snd db].
  - repeat split. intros k. apply same_book_but_details_refl.
  - repeat split. intros k. cbn [books db].
    destruct (decide (book_id b = k)) as [<-|Hne].
    + rewrite lookup_alter_eq. destruct (books (db w) !! book_id b); cbn; auto.
    + rewrite lookup_alter_ne by exact Hne. apply same_book_but_details_refl.
Qed.

Lemma same_store_fetch E link : stable same_store (getFromBookQuickLink E link).
Proof.
  intros w. unfold getFromBookQuickLink. run.
  destruct (provider E link); reflexivity.
Qed.

(** ** The reads write nothing but cached details *)

(** X1. Whatever the store and the provider do, [getBookForUser] leaves
    the store exactly as it was, and [getBooksForUser] changes nothing
    but the cached details of books: users, associations and the id
    sequence are untouched, no book appears or disappears, and every
    book keeps its id and its link. *)
Theorem reads_write_only_cached_details E u a w :
  db (snd (getBookForUser E u a w)) = db w
  /\ users (db (snd (getBooksForUser E u w))) = users (db w)
  /\ usersBooks (db (snd (getBooksForUser E u w))) = usersBooks (db w)
  /\ nextId (db (snd (getBooksForUser E u w))) = nextId (db w)
  /\ forall k,
       same_book_but_details (books (db w) !! k)
         (books (db (snd (getBooksForUser E u w))) !! k).
Proof.
  split.
  - apply (stable_getBookForUser same_store); unfold same_store;
      [reflexivity|congruence|reflexivity|apply same_store_fetch].
  - apply (stable_getBooksForUser only_details_change).
    + exact only_details_change_refl.
    + exact only_details_change_trans.
    + intros w0 op. repeat split. intros k. apply same_book_but_details_refl.
    + apply only_details_fetch.
    + apply only_details_Book_update.
Qed.

(** ** The writes ask nothing of the provider *)

Lemma same_catalog_no_fetch_refl w : same_catalog_no_fetch w w.
Proof. repeat split. Qed.

Lemma same_catalog_no_fetch_trans a b c :
  same_catalog_no_fetch a b -> same_catalog_no_fetch b c ->
  same_catalog_no_fetch a c.
Proof.
  intros (H1 & H2 & H3) (H1' & H2' & H3'). repeat split; congruence.
Qed.

Lemma same_catalog_no_fetch_call w op :
  same_catalog_no_fetch w (mkWorld (db w) (trace w ++ [EvStore op])).
Proof.
  split; [apply fetches_store_event|]. split; reflexivity.
Qed.

Lemma same_catalog_create E u b v imp :
  stable same_catalog_no_fetch (UsersBooks_create E u b v imp).
Proof.
  intros w. unfold UsersBooks_create. run.
  destruct (fault E (trace w) OpCreate); cbn [snd];
    [apply same_catalog_no_fetch_call|].
  destruct (all_failures _ _); cbn [snd]; [apply same_catalog_no_fetch_call|].
  destruct (negb _); cbn [snd];
    [split; [apply fetches_store_event|]; split; reflexivity|].
  destruct (negb _); cbn [snd];
    [split; [apply fetches_store_event|]; split; reflexivity|].
  split; [apply fetches_store_event|]. split; reflexivity.
Qed.

Lemma same_catalog_update E r v :
  stable same_catalog_no_fetch (UsersBooks_update E r v).
Proof.
  intros w. unfold UsersBooks_update. run.
  destruct (fault E (trace w) OpUpdate); cbn [snd];
    [apply same_catalog_no_fetch_call|].
  destruct (all_failures _ _); cbn [snd]; [apply same_catalog_no_fetch_call|].
  split; [apply fetches_store_event|]. split; reflexivity.
Qed.

Lemma same_catalog_destroy E wh :
  stable same_catalog_no_fetch (UsersBooks_destroy E wh).
Proof.
  intros w. unfold UsersBooks_destroy. run.
  destruct (fault E (trace w) OpDestroy); cbn [snd];
    [apply same_catalog_no_fetch_call|].
  split; [apply fetches_store_event|]. split; reflexivity.
Qed.

(** X2. Whatever the store does, [addBookToUser], [updateUserBook] and
    [deleteBookFromUser] never ask the provider for anything and never
    change the table of books or the table of users: they write to
    [users_books] only. *)
Theorem writes_touch_only_the_associations E w :
  (forall now u b r ds df n imp,
      same_catalog_no_fetch w (snd (addBookToUser E now u b r ds df n imp w)))
  /\ (forall now u a r ds df n,
      same_catalog_no_fetch w (snd (updateUserBook E now u a r ds df n w)))
  /\ (forall u a,
      same_catalog_no_fetch w (snd (deleteBookFromUser E u a w))).
Proof.
  split; [|split].
  - intros now u b r ds df n imp.
    apply (stable_addBookToUser same_catalog_no_fetch
             same_catalog_no_fetch_refl same_catalog_no_fetch_trans
             same_catalog_no_fetch_call E u).
    intros. apply same_catalog_create.
  - intros now u a r ds df n.
    apply (stable_updateUserBook same_catalog_no_fetch
             same_catalog_no_fetch_refl same_catalog_no_fetch_trans
             same_catalog_no_fetch_call E).
    intros. apply same_catalog_update.
  - intros u a.
    apply (stable_deleteBookFromUser same_catalog_no_fetch
             same_catalog_no_fetch_refl same_catalog_no_fetch_trans E).
    apply same_catalog_destroy.
Qed.

(** ** One user's writes and another user's rows *)

Lemma id_determines_row (rows : list UsersBooks) (x y : UsersBooks) :
  NoDup (map id rows) -> x ∈ rows -> y ∈ rows -> id x = id y -> x = y.
Proof.
  induction rows as [|z rows IH]; intros Hnd Hx Hy Hid; [inversion Hx|].
  cbn [map] in Hnd. apply NoDup_cons in Hnd as [Hz Hnd].
  assert (Hmem : forall r, r ∈ rows -> id r ∈ map id rows).
  { intros r Hr. apply list_elem_of_In, in_map, list_elem_of_In, Hr. }
  apply elem_of_cons in Hx as [->|Hx]; apply elem_of_cons in Hy as [->|Hy].
  - reflexivity.
  - exfalso. apply Hz. rewrite Hid. apply Hmem, Hy.
  - exfalso. apply Hz. rewrite <- Hid. apply Hmem, Hx.
  - apply IH; assumption.
Qed.

Lemma head_filter_Some {A} (P : A -> Prop) `{forall x, Decision (P x)}
    (l : list A) (x : A) :
  head (filter P l) = Some x -> P x /\ x ∈ l.
Proof.
  intros Hhead. apply (proj1 (list_elem_of_filter P l x)).
  destruct (filter P l) as [|y l']; [discriminate|].
  injection Hhead as ->. left.
Qed.

Lemma rows_of_map_fixed (f : UsersBooks -> UsersBooks) (rows : list UsersBooks) u' :
  (forall x, x ∈ rows -> userId (f x) = userId x) ->
  (forall x, x ∈ rows -> userId x = u' -> f x = x) ->
  filter (fun r => userId r = u') (map f rows) = filter (fun r => userId r = u') rows.
Proof.
  induction rows as [|x rows IH]; intros Hkeep Hfix; [reflexivity|].
  cbn [map]. rewrite !filter_cons.
  rewrite IH;
    [|intros y Hy; apply Hkeep; right; exact Hy
     |intros y Hy Hyu; apply Hfix; [right; exact Hy|exact Hyu]].
  rewrite (Hkeep x) by left.
  destruct (decide (userId x = u')) as [Hx|Hx]; [|reflexivity].
  rewrite (Hfix x); [reflexivity|left|exact Hx].
Qed.

Lemma same_rows_of_call u' w op :
  same_rows_of u' w (mkWorld (db w) (trace w ++ [EvStore op])).
Proof. reflexivity. Qed.

Lemma same_rows_of_create E u u' b v imp :
  u <> u' -> stable (same_rows_of u') (UsersBooks_create E u b v imp).
Proof.
  intros Hne w. unfold UsersBooks_create. run.
  destruct (fault E (trace w) OpCreate); cbn [snd]; [reflexivity|].
  destruct (all_failures _ _); cbn [snd]; [reflexivity|].
  destruct (negb _); cbn [snd]; [reflexivity|].
  destruct (negb _); cbn [snd]; [reflexivity|].
  unfold same_rows_of, rows_of. cbn [db usersBooks].
  rewrite filter_app, filter_cons, decide_False by exact Hne.
  rewrite filter_nil. apply app_nil_r.
Qed.

Lemma same_rows_of_destroy E u u' a :
  u <> u' ->
  stable (same_rows_of u') (UsersBooks_destroy E (mkWhere (Some a) (Some u) None)).
Proof.
  intros Hne w. unfold UsersBooks_destroy. run.
  destruct (fault E (trace w) OpDestroy); cbn [snd]; [reflexivity|].
  unfold same_rows_of, rows_of. cbn [db usersBooks].
  induction (usersBooks (db w)) as [|x rows IH]; [reflexivity|].
  rewrite !filter_cons.
  destruct (decide (userId x = u')) as [Hx|Hx].
  - rewrite decide_True.
    + rewrite filter_cons, decide_True by exact Hx. f_equal. exact IH.
    + destruct (matches _ x) eqn:Hm; [|reflexivity].
      apply matches_id_user in Hm as [Hu _]. congruence.
  - destruct (decide (matches _ x = false)); [|exact IH].
    rewrite filter_cons, decide_False by exact Hx. exact IH.
Qed.

Lemma same_rows_of_update E u u' r v w :
  u <> u' -> wf (db w) -> r ∈ usersBooks (db w) -> userId r = u ->
  same_rows_of u' w (snd (UsersBooks_update E r v w)).
Proof.
  intros Hne Hwf Hr Hu. unfold UsersBooks_update. run.
  destruct (fault E (trace w) OpUpdate); cbn [snd]; [reflexivity|].
  destruct (all_failures _ _); cbn [snd]; [reflexivity|].
  unfold same_rows_of, rows_of. cbn [db usersBooks].
  apply rows_of_map_fixed.
  - intros x _. destruct (id x =? id r); reflexivity.
  - intros x Hx Hxu. destruct (Z.eqb_spec (id x) (id r)) as [Hid|]; [|reflexivity].
    exfalso. apply Hne.
    rewrite <- (id_determines_row _ _ _ (wf_ids_nodup _ Hwf) Hx Hr Hid) in Hu.
    congruence.
Qed.

(** X3. On a well-formed store, whatever the store does, an
    [addBookToUser], [updateUserBook] or [deleteBookFromUser] made for
    user [u] leaves the rows of every other user as they were, in
    content and in order. *)
Theorem writes_leave_other_users_rows E u u' w :
  u <> u' ->
  wf (db w) ->
  (forall now b r ds df n imp,
      rows_of (db (snd (addBookToUser E now u b r ds df n imp w))) u'
      = rows_of (db w) u')
  /\ (forall now a r ds df n,
      rows_of (db (snd (updateUserBook E now u a r ds df n w))) u'
      = rows_of (db w) u')
  /\ (forall a,
      rows_of (db (snd (deleteBookFromUser E u a w))) u' = rows_of (db w) u').
Proof.
  intros Hne Hwf.
  assert (Hrefl : forall w0, same_rows_of u' w0 w0) by reflexivity.
  assert (Htrans : forall a b c,
             same_rows_of u' a b -> same_rows_of u' b c -> same_rows_of u' a c).
  { unfold same_rows_of. intros. congruence. }
  split; [|split].
  - intros now b r ds df n imp.
    apply (stable_addBookToUser (same_rows_of u') Hrefl Htrans
             (same_rows_of_call u') E u).
    intros. apply same_rows_of_create. exact Hne.
  - intros now a r ds df n. unfold updateUserBook.
    destruct (rating_out_of_range r); [reflexivity|].
    destruct (both_and_after ds df); [reflexivity|].
    destruct (set_and_after ds now); [reflexivity|].
    unfold UsersBooks_findOne, UsersBooks_findOne_include. run.
    destruct (fault E (trace w) OpFindOne); cbn [snd]; [reflexivity|].
    destruct (head _) as [found|] eqn:Hfound; cbn [snd]; [|reflexivity].
    apply head_filter_Some in Hfound as [Hm Hin].
    apply matches_id_user in Hm as [Hu _].
    set (w1 := mkWorld (db w) (trace w ++ [EvStore OpFindOne])).
    pose proof (same_rows_of_update E u u' found
                  (mkValues r ds df n) w1 Hne Hwf Hin Hu) as Hupd.
    destruct (UsersBooks_update E found _ w1) as [[x|t] w2]; cbn [snd] in *;
      [|exact Hupd].
    destruct (fault E (trace w2) OpFindOne); exact Hupd.
  - intros a.
    apply (stable_deleteBookFromUser (same_rows_of u') Hrefl Htrans E).
    apply same_rows_of_destroy. exact Hne.
Qed.

Lemma writes_leave_other_users_rows_witness :
  rows_of (db (snd (addBookToUser demo_env 100 1 5 (Some 4) None None None false
                      demo_world))) 2
  = rows_of demo_db 2
  /\ rows_of (db (snd (updateUserBook demo_env 100 1 1 (Some 2) None None None
                         demo_world))) 2
     = rows_of demo_db 2
  /\ rows_of (db (snd (deleteBookFromUser demo_env 1 1 demo_world))) 2
     = rows_of demo_db 2.
Proof.
  assert (Hne : 1 <> 2) by lia.
  destruct (writes_leave_other_users_rows demo_env 1 2 demo_world Hne demo_db_wf)
    as (Hadd & Hupd & Hdel).
  split; [apply Hadd|]. split; [apply Hupd|apply Hdel].
Defined.

(** ** What a rejection looks like *)

Lemma try_catch_rethrow_plain {A} (m : M A) w e :
  fst (try_catch m rethrow w) = Err e -> exists msg, e = newError msg.
Proof.
  unfold try_catch, rethrow, throw.
  destruct (m w) as [[a|t] w']; cbn [fst]; [discriminate|].
  intros [= <-]. destruct t; cbn; eauto.
Qed.

(** X4. A rejection of [getBooksForUser], [getBookForUser],
    [updateUserBook] or [deleteBookFromUser] is always a plain [Error]:
    whatever was thrown underneath (a [TypeError], a Sequelize error, a
    value that is no error at all), its class is gone.  [addBookToUser]
    differs: its lookup of the book is made before the [try], so what the
    store throws there reaches the caller as it is. *)
Theorem rejections_are_plain_errors_but_for_the_book_lookup E w :
  (forall u e, fst (getBooksForUser E u w) = Err e -> exists msg, e = newError msg)
  /\ (forall u a e,
        fst (getBookForUser E u a w) = Err e -> exists msg, e = newError msg)
  /\ (forall now u a r ds df n e,
        fst (updateUserBook E now u a r ds df n w) = Err e ->
        exists msg, e = newError msg)
  /\ (forall u a e,
        fst (deleteBookFromUser E u a w) = Err e -> exists msg, e = newError msg)
  /\ (forall now u b r ds df n imp t,
        rating_above_10 r = false ->
        both_and_after ds df = false ->
        set_and_after ds now = false ->
        fault E (trace w) OpBookFindByPk = Some t ->
        fst (addBookToUser E now u b r ds df n imp w) = Err t).
Proof.
  split; [|split; [|split; [|split]]].
  - intros u e. apply try_catch_rethrow_plain.
  - intros u a e. apply try_catch_rethrow_plain.
  - intros now u a r ds df n e. unfold updateUserBook.
    destruct (rating_out_of_range r); [intros [= <-]; eauto|].
    destruct (both_and_after ds df); [intros [= <-]; eauto|].
    destruct (set_and_after ds now); [intros [= <-]; eauto|].
    apply try_catch_rethrow_plain.
  - intros u a e. apply try_catch_rethrow_plain.
  - intros now u b r ds df n imp t H1 H2 H3 Hfault. unfold addBookToUser.
    rewrite H1, H2, H3. unfold Book_findByPk. run. rewrite Hfault. reflexivity.
Qed.

Lemma rejections_are_plain_errors_but_for_the_book_lookup_witness :
  fst (addBookToUser offline_env 100 1 5 None None None None false demo_world)
  = Err (ThrownOther (JStr "ECONNRESET"))
  /\ fst (deleteBookFromUser offline_env 1 1 demo_world)
     = Err (newError "An unknown error occurred").
Proof.
  destruct (rejections_are_plain_errors_but_for_the_book_lookup offline_env demo_world)
    as (_ & _ & _ & Hdel & Hadd).
  split.
  - apply Hadd; reflexivity.
  - destruct (Hdel 1 1 _ eq_refl) as [msg Hmsg]. exact eq_refl.
Defined.

(** ** Reading what is not there *)

(** X5. When user [u] has no association [a] (the id is unknown, or is
    another user's) and the store answers the lookup, [getBookForUser]
    returns [null], not an error; the provider is not asked and the store
    is not written. *)
Theorem getBookForUser_absent_is_null E u a w :
  fault E (trace w) OpFindOne = None ->
  no_association (db w) u a ->
  getBookForUser E u a w
  = (Ok None, mkWorld (db w) (trace w ++ [EvStore OpFindOne])).
Proof.
  intros Hfault Hno. unfold getBookForUser, UsersBooks_findOne_include. run.
  rewrite Hfault. run. rewrite (no_association_filter _ _ _ Hno). reflexivity.
Qed.

Lemma getBookForUser_absent_is_null_witness :
  getBookForUser failing_env 1 2 demo_world
  = (Ok None, mkWorld demo_db [EvStore OpFindOne]).
Proof.
  apply (getBookForUser_absent_is_null failing_env 1 2 demo_world eq_refl).
  apply (bool_decide_unpack _). vm_compute. exact I.
Defined.

(** X6. For a user without any association, when the store answers,
    [getBooksForUser] returns the empty list; the provider is not asked
    (so its failures do not matter) and the store is not written. *)
Theorem getBooksForUser_without_rows E u w :
  fault E (trace w) OpFindAll = None ->
  rows_of (db w) u = [] ->
  getBooksForUser E u w
  = (Ok [], mkWorld (db w) (trace w ++ [EvStore OpFindAll])).
Proof.
  intros Hfault Hnone. unfold getBooksForUser, UsersBooks_findAll. run.
  rewrite Hfault. run.
  assert (Hrows : filter (fun r => matches (mkWhere None (Some u) None) r = true)
                    (usersBooks (db w)) = []).
  { rewrite <- Hnone. unfold rows_of. apply list_filter_iff.
    intros r. apply matches_user. }
  rewrite Hrows. reflexivity.
Qed.

Lemma getBooksForUser_without_rows_witness :
  getBooksForUser failing_env 7 demo_world
  = (Ok [], mkWorld demo_db [EvStore OpFindAll]).
Proof.
  apply (getBooksForUser_without_rows failing_env 7 demo_world eq_refl).
  reflexivity.
Defined.

(** X7. When the store answers, a successful [getBooksForUser u] has
    exactly the rows of user [u], each once and in the order of the
    store, and no row of anybody else. *)
Theorem getBooksForUser_lists_the_users_rows E u w out :
  reliable E ->
  fst (getBooksForUser E u w) = Ok out ->
  map ubd_row out = rows_of (db w) u.
Proof.
  intros Hrel Hout.
  pose proof (getBooksForUser_entries E u w Hrel out Hout) as Hall.
  assert (Hrows : map row (associations_of (db w) u) = rows_of (db w) u).
  { unfold associations_of, rows_of. rewrite map_map. cbn [include_book row].
    rewrite map_id. apply list_filter_iff. intros r. apply matches_user. }
  rewrite <- Hrows. clear Hrows Hout.
  induction Hall as [|j e l out' Hje _ IH]; [reflexivity|].
  cbn [map]. rewrite IH. f_equal.
  unfold outcome_of in Hje. destruct (book j) as [bk|]; [|discriminate].
  destruct (needsRefresh (bookDetails bk)).
  - destruct (provider E (quickLink bk)); [discriminate|].
    injection Hje as <-. reflexivity.
  - injection Hje as <-. reflexivity.
Qed.

Lemma getBooksForUser_lists_the_users_rows_witness :
  exists out,
    fst (getBooksForUser demo_env 2 demo_world) = Ok out
    /\ map ubd_row out = [mkUsersBooks 2 2 5 None None None (Some "to read") false].
Proof.
  exists [mkUserBookDetails
            (mkUsersBooks 2 2 5 None None None (Some "to read") false)
            (listed_book (mkBook 5 "volumes/five" JNull)
               (JObj (demo_volume "volumes/five")))].
  assert (Hout : fst (getBooksForUser demo_env 2 demo_world)
                 = Ok [mkUserBookDetails
                         (mkUsersBooks 2 2 5 None None None (Some "to read") false)
                         (listed_book (mkBook 5 "volumes/five" JNull)
                            (JObj (demo_volume "volumes/five")))]).
  { vm_compute. reflexivity. }
  split; [exact Hout|].
  exact (getBooksForUser_lists_the_users_rows demo_env 2 demo_world _
           demo_env_reliable Hout).
Defined.

(** ** [updateUserBook] when the association is there *)

Lemma in_range_rating_validates rating :
  rating_out_of_range rating = false -> validate_userRating rating = None.
Proof.
  destruct rating as [x|]; cbn; [|reflexivity].
  rewrite orb_false_iff. intros [-> ->]. reflexivity.
Qed.

Lemma storable_notes_validate n :
  notes_storable n -> validate_userNotes n = None.
Proof.
  destruct n as [s|]; cbn; [|reflexivity]. intros Hs.
  specialize (Hs s eq_refl).
  destruct (Z.leb_spec 1 (Z.of_nat (String.length s))); [|lia].
  destruct (Z.leb_spec (Z.of_nat (String.length s)) 1000); [reflexivity|lia].
Qed.

Lemma changed_None {A} `{EqDecision A} (old new : A) : changed old new None = None.
Proof. unfold changed. destruct (bool_decide _); reflexivity. Qed.

Lemma refetch_updated (f : UsersBooks -> UsersBooks) (rows : list UsersBooks) r :
  NoDup (map id rows) -> r ∈ rows ->
  (forall x, id (f x) = id x) ->
  head (filter (fun x => matches (mkWhere (Some (id r)) None None) x = true)
          (map (fun x => if id x =? id r then f x else x) rows))
  = Some (f r).
Proof.
  intros Hnd Hr Hid.
  induction rows as [|x rows IH]; [inversion Hr|].
  cbn [map]. rewrite filter_cons.
  destruct (Z.eqb_spec (id x) (id r)) as [Hx|Hx].
  - assert (x = r) as ->.
    { apply (id_determines_row (x :: rows)); [exact Hnd|left|exact Hr|exact Hx]. }
    rewrite decide_True by (apply matches_id, Hid). reflexivity.
  - rewrite decide_False by (rewrite matches_id; exact Hx).
    cbn [map] in Hnd. apply NoDup_cons in Hnd as [_ Hnd].
    apply elem_of_cons in Hr as [->|Hr]; [congruence|]. apply IH; assumption.
Qed.

(** X8. When association [a] of user [u] exists, the store answers and
    the payload passes the checks (rating absent or in 1..10, dates in
    order and not in the future, notes absent or of 1 to 1000
    characters), [updateUserBook] succeeds and replaces the four fields
    of that row by the payload, absent values included: a field the
    caller leaves out becomes [null].  The id, user, book and import flag
    of the row stay, every other row is untouched, and the row is
    returned with its book. *)
Theorem updateUserBook_replaces_the_four_fields E now u a r rating ds df n w :
  reliable E ->
  wf (db w) ->
  r ∈ usersBooks (db w) -> userId r = u -> id r = a ->
  rating_out_of_range rating = false ->
  both_and_after ds df = false ->
  set_and_after ds now = false ->
  notes_storable n ->
  let r' := mkUsersBooks (id r) (userId r) (bookId r) rating ds df n (import r) in
  updateUserBook E now u a rating ds df n w
  = (Ok (Some (mkUsersBooksType r' (books (db w) !! bookId r))),
     mkWorld
       (mkDB (users (db w)) (books (db w))
          (map (fun x => if id x =? a then r' else x) (usersBooks (db w)))
          (nextId (db w)))
       (trace w ++ [EvStore OpFindOne; EvStore OpUpdate; EvStore OpFindOne])).
Proof.
  intros Hrel Hwf Hr Hu Ha Hrating Hd Hp Hn r'.
  pose proof (lookup_association_found _ _ _ _ Hwf Hr Hu Ha) as Hfound.
  unfold lookup_association in Hfound.
  unfold updateUserBook. rewrite Hrating, Hd, Hp.
  unfold UsersBooks_findOne, UsersBooks_update, UsersBooks_findOne_include. run.
  rewrite !Hrel. run. rewrite Hfound. run. rewrite !Hrel. run.
  cbn [v_userRating v_userNotes].
  rewrite (in_range_rating_validates _ Hrating), (storable_notes_validate _ Hn).
  rewrite !changed_None. cbn [all_failures]. run. rewrite !Hrel. run.
  cbn [usersBooks id set_values].
  rewrite (refetch_updated (set_values (mkValues rating ds df n)) _ r
             (wf_ids_nodup _ Hwf) Hr) by reflexivity.
  cbn [fmap option_fmap option_map include_book books bookId set_values
         v_userRating v_dateStarted v_dateFinished v_userNotes].
  rewrite <- !app_assoc. cbn [app]. fold r'. subst a.
  assert (Hrows : map (fun x => if id x =? id r
                               then set_values (mkValues rating ds df n) x else x)
                    (usersBooks (db w))
                  = map (fun x => if id x =? id r then r' else x) (usersBooks (db w))).
  { apply map_ext_in. intros x Hx. apply list_elem_of_In in Hx.
    destruct (Z.eqb_spec (id x) (id r)) as [Hid|]; [|reflexivity].
    rewrite (id_determines_row _ _ _ (wf_ids_nodup _ Hwf) Hx Hr Hid). reflexivity. }
  rewrite Hrows. reflexivity.
Qed.

Lemma updateUserBook_replaces_the_four_fields_witness :
  updateUserBook demo_env 100 1 1 None (Some 40) None (Some "halfway") demo_world
  = (Ok (Some (mkUsersBooksType
                 (mkUsersBooks 1 1 6 None (Some 40) None (Some "halfway") false)
                 (Some (mkBook 6 "volumes/six" (JObj (demo_volume "Six")))))),
     mkWorld
       (mkDB (users demo_db) (books demo_db)
          [mkUsersBooks 1 1 6 None (Some 40) None (Some "halfway") false;
           mkUsersBooks 2 2 5 None None None (Some "to read") false]
          3)
       [EvStore OpFindOne; EvStore OpUpdate; EvStore OpFindOne]).
Proof.
  apply (updateUserBook_replaces_the_four_fields demo_env 100 1 1
           (mkUsersBooks 1 1 6 (Some 8) None None None false)
           None (Some 40) None (Some "halfway") demo_world).
  - exact demo_env_reliable.
  - exact demo_db_wf.
  - cbn. left.
  - reflexivity.
  - reflexivity.
  - reflexivity.
  - reflexivity.
  - reflexivity.
  - intros s [= <-]. cbn. lia.
Defined.

(** X9. [updateUserBook] does not turn empty notes into [null] as
    [addBookToUser] does: when the association exists and the payload
    passes the checks of the service, notes that differ from the stored
    ones and are empty or longer than 1000 characters are refused by the
    validator of the model; the caller gets Sequelize's message and the
    row is not changed. *)
Theorem updateUserBook_refuses_unstorable_notes E now u a r rating ds df s w :
  reliable E ->
  lookup_association (db w) u a = Some r ->
  rating_out_of_range rating = false ->
  both_and_after ds df = false ->
  set_and_after ds now = false ->
  userNotes r <> Some s ->
  (String.length s = 0 \/ 1000 < String.length s)%nat ->
  updateUserBook E now u a rating ds df (Some s) w
  = (Err (newError "Validation error: Validation len on userNotes failed"),
     mkWorld (db w) (trace w ++ [EvStore OpFindOne; EvStore OpUpdate])).
Proof.
  intros Hrel Hfound Hrating Hd Hp Hdiff Hlen.
  unfold lookup_association in Hfound.
  unfold updateUserBook. rewrite Hrating, Hd, Hp.
  unfold UsersBooks_findOne, UsersBooks_update. run.
  rewrite !Hrel. run. rewrite Hfound. run. rewrite !Hrel. run.
  cbn [v_userRating v_userNotes].
  rewrite (in_range_rating_validates _ Hrating).
  unfold changed at 1. destruct (bool_decide _); cbn [all_failures].
  all: unfold changed; rewrite bool_decide_eq_false_2 by exact Hdiff.
  all: assert (Hv : validate_userNotes (Some s)
                    = Some (validationError "len" "userNotes"))
         by (cbn; destruct (Z.leb_spec 1 (Z.of_nat (String.length s)));
             destruct (Z.leb_spec (Z.of_nat (String.length s)) 1000);
             cbn; try reflexivity; lia).
  all: rewrite Hv; run; rewrite <- !app_assoc; reflexivity.
Qed.

Lemma updateUserBook_refuses_unstorable_notes_witness :
  updateUserBook demo_env 100 2 2 None None None (Some EmptyString) demo_world
  = (Err (newError "Validation error: Validation len on userNotes failed"),
     mkWorld demo_db [EvStore OpFindOne; EvStore OpUpdate]).
Proof.
  apply (updateUserBook_refuses_unstorable_notes demo_env 100 2 2
           (mkUsersBooks 2 2 5 None None None (Some "to read") false)
           None None None EmptyString demo_world).
  - exact demo_env_reliable.
  - reflexivity.
  - reflexivity.
  - reflexivity.
  - reflexivity.
  - discriminate.
  - left. reflexivity.
Defined.

(** ** [addBookToUser] at the bounds of the payload *)

(** The calls [addBookToUser] makes up to and including the [create]. *)
Lemma addBookToUser_reaches_create E now u b bk r ds df n imp w :
  reliable E ->
  books (db w) !! b = Some bk ->
  not_yet_added (db w) u b ->
  rating_above_10 r = false ->
  both_and_after ds df = false ->
  set_and_after ds now = false ->
  forall t,
    all_failures (validate_userRating (rating_or_null r))
      (validate_userNotes (notes_or_null n)) = Some t ->
    addBookToUser E now u b r ds df n imp w
    = (Err (surfaced t),
       mkWorld (db w)
         (trace w ++ [EvStore OpBookFindByPk; EvStore OpFindOne; EvStore OpCreate])).
Proof.
  intros Hrel Hbk Hnew Hr Hd Hp t Ht.
  unfold addBookToUser. rewrite Hr, Hd, Hp.
  unfold Book_findByPk, UsersBooks_findOne, UsersBooks_create. run.
  rewrite !Hrel. run. rewrite Hbk. run. rewrite !Hrel. run.
  rewrite (not_yet_added_filter _ _ _ Hnew). cbn [head]. run.
  rewrite !Hrel. cbn [v_userRating v_userNotes]. rewrite Ht.
  rewrite <- !app_assoc. reflexivity.
Qed.

Lemma negative_rating_fails_min x :
  x < 0 ->
  rating_above_10 (Some x) = false
  /\ validate_userRating (rating_or_null (Some x))
     = Some (validationError "min" "userRating").
Proof.
  intros Hx. split; [cbn; apply Z.ltb_ge; lia|].
  cbn. destruct (Z.eqb_spec x 0); [lia|]. cbn.
  destruct (Z.ltb_spec x 1); [reflexivity|lia].
Qed.

Lemma notes_up_to_1000_pass n :
  (forall s, n = Some s -> (String.length s <= 1000)%nat) ->
  validate_userNotes (notes_or_null n) = None.
Proof.
  intros Hn. destruct n as [s|]; [|reflexivity].
  specialize (Hn s eq_refl). cbn [notes_or_null].
  destruct (Nat.eqb_spec (String.length s) 0); [reflexivity|]. cbn.
  destruct (Z.leb_spec 1 (Z.of_nat (String.length s))); [|lia].
  destruct (Z.leb_spec (Z.of_nat (String.length s)) 1000); [reflexivity|lia].
Qed.

Lemma notes_over_1000_fail_len s :
  (1000 < String.length s)%nat ->
  validate_userNotes (notes_or_null (Some s))
  = Some (validationError "len" "userNotes").
Proof.
  intros Hs. cbn [notes_or_null].
  destruct (Nat.eqb_spec (String.length s) 0); [lia|]. cbn.
  destruct (Z.leb_spec 1 (Z.of_nat (String.length s)));
    destruct (Z.leb_spec (Z.of_nat (String.length s)) 1000);
    cbn; try reflexivity; lia.
Qed.

(** X10. [addBookToUser] has no lower bound on the rating, but the model
    has: for a book that exists and is not yet the user's, with dates
    that pass and a store that answers, a negative rating gets as far as
    the [create] and is refused there by the validators, and no row is
    created.  What the caller receives depends on the notes, since
    Sequelize reports every validator that failed: with no notes, empty
    notes or notes of at most 1000 characters it is the message of the
    [min] validator alone; with notes of more than 1000 characters it is
    that message, a comma, a line feed, and the message of the [len]
    validator. *)
Theorem addBookToUser_negative_rating_refused_by_model
    E now u b bk x ds df imp w :
  reliable E ->
  books (db w) !! b = Some bk ->
  not_yet_added (db w) u b ->
  x < 0 ->
  both_and_after ds df = false ->
  set_and_after ds now = false ->
  (forall n,
      (forall s, n = Some s -> (String.length s <= 1000)%nat) ->
      addBookToUser E now u b (Some x) ds df n imp w
      = (Err (newError "Validation error: Validation min on userRating failed"),
         mkWorld (db w)
           (trace w ++ [EvStore OpBookFindByPk; EvStore OpFindOne;
                        EvStore OpCreate])))
  /\ (forall s,
        (1000 < String.length s)%nat ->
        addBookToUser E now u b (Some x) ds df (Some s) imp w
        = (Err (newError
                  ("Validation error: Validation min on userRating failed,"
                     +:+ line_feed
                     +:+ "Validation error: Validation len on userNotes failed")),
           mkWorld (db w)
             (trace w ++ [EvStore OpBookFindByPk; EvStore OpFindOne;
                          EvStore OpCreate]))).
Proof.
  intros Hrel Hbk Hnew Hx Hd Hp.
  destruct (negative_rating_fails_min x Hx) as [Habove Hmin].
  split.
  - intros n Hn.
    apply (addBookToUser_reaches_create E now u b bk (Some x) ds df n imp w
             Hrel Hbk Hnew Habove Hd Hp (validationError "min" "userRating")).
    rewrite Hmin, (notes_up_to_1000_pass n Hn). reflexivity.
  - intros s Hs.
    apply (addBookToUser_reaches_create E now u b bk (Some x) ds df (Some s) imp w
             Hrel Hbk Hnew Habove Hd Hp
             (ThrownError "SequelizeValidationError"
                ("Validation error: Validation min on userRating failed,"
                   +:+ line_feed
                   +:+ "Validation error: Validation len on userNotes failed"))).
    rewrite Hmin, (notes_over_1000_fail_len s Hs). reflexivity.
Qed.

Lemma addBookToUser_negative_rating_refused_by_model_witness :
  addBookToUser demo_env 100 1 5 (Some (-3)) None None None false demo_world
  = (Err (newError "Validation error: Validation min on userRating failed"),
     mkWorld demo_db [EvStore OpBookFindByPk; EvStore OpFindOne; EvStore OpCreate])
  /\ addBookToUser demo_env 100 1 5 (Some (-3)) None None (Some long_notes) false
       demo_world
     = (Err (newError
               ("Validation error: Validation min on userRating failed,"
                  +:+ line_feed
                  +:+ "Validation error: Validation len on userNotes failed")),
        mkWorld demo_db [EvStore OpBookFindByPk; EvStore OpFindOne; EvStore OpCreate]).
Proof.
  destruct (addBookToUser_negative_rating_refused_by_model demo_env 100 1 5
              (mkBook 5 "volumes/five" JNull) (-3) None None false demo_world)
    as [Hshort Hlong].
  - exact demo_env_reliable.
  - reflexivity.
  - apply (bool_decide_unpack _). vm_compute. exact I.
  - lia.
  - reflexivity.
  - reflexivity.
  - split.
    + apply (Hshort None). intros s Hs. discriminate Hs.
    + apply (Hlong long_notes). vm_compute. lia.
Defined.

(** X11. Notes on [addBookToUser]: empty notes are the same call as no
    notes at all (both store [null]); notes of more than 1000 characters,
    on a call that otherwise gets to the [create] with a rating the model
    accepts, are refused by the [len] validator with Sequelize's message,
    and no row is created. *)
Theorem addBookToUser_notes_bounds E now u b w :
  (forall r ds df imp,
      addBookToUser E now u b r ds df (Some EmptyString) imp w
      = addBookToUser E now u b r ds df None imp w)
  /\ (forall bk r ds df s imp,
        reliable E ->
        books (db w) !! b = Some bk ->
        not_yet_added (db w) u b ->
        (forall x, r = Some x -> 0 <= x <= 10) ->
        both_and_after ds df = false ->
        set_and_after ds now = false ->
        (1000 < String.length s)%nat ->
        addBookToUser E now u b r ds df (Some s) imp w
        = (Err (newError "Validation error: Validation len on userNotes failed"),
           mkWorld (db w)
             (trace w ++ [EvStore OpBookFindByPk; EvStore OpFindOne;
                          EvStore OpCreate]))).
Proof.
  split; [reflexivity|].
  intros bk r ds df s imp Hrel Hbk Hnew Hr Hd Hp Hs.
  assert (Hrating : rating_above_10 r = false
                    /\ validate_userRating (rating_or_null r) = None).
  { destruct r as [x|]; cbn; [|split; reflexivity].
    specialize (Hr x eq_refl). split; [apply Z.ltb_ge; lia|].
    destruct (Z.eqb_spec x 0); [reflexivity|]. cbn.
    destruct (Z.ltb_spec x 1); [lia|]. destruct (Z.ltb_spec 10 x); [lia|reflexivity]. }
  destruct Hrating as [Habove Hvalid].
  apply (addBookToUser_reaches_create E now u b bk r ds df (Some s) imp w
           Hrel Hbk Hnew Habove Hd Hp (validationError "len" "userNotes")).
  rewrite Hvalid. cbn [all_failures notes_or_null].
  destruct (Nat.eqb_spec (String.length s) 0); [lia|]. cbn.
  destruct (Z.leb_spec 1 (Z.of_nat (String.length s)));
    destruct (Z.leb_spec (Z.of_nat (String.length s)) 1000);
    cbn; try reflexivity; lia.
Qed.

Lemma addBookToUser_notes_bounds_witness :
  addBookToUser demo_env 100 1 5 (Some 0) None None (Some long_notes) false demo_world
  = (Err (newError "Validation error: Validation len on userNotes failed"),
     mkWorld demo_db [EvStore OpBookFindByPk; EvStore OpFindOne; EvStore OpCreate]).
Proof.
  destruct (addBookToUser_notes_bounds demo_env 100 1 5 demo_world) as [_ Hlong].
  apply (Hlong (mkBook 5 "volumes/five" JNull) (Some 0) None None long_notes false).
  - exact demo_env_reliable.
  - reflexivity.
  - apply (bool_decide_unpack _). vm_compute. exact I.
  - intros x [= <-]. lia.
  - reflexivity.
  - reflexivity.
  - vm_compute. lia.
Defined.

(** ** Operations in sequence *)

Lemma wf_after_create d r :
  wf d -> id r = nextId d -> userId r ∈ users d -> is_Some (books d !! bookId r) ->
  wf (mkDB (users d) (books d) (usersBooks d ++ [r]) (nextId d + 1)).
Proof.
  intros [H1 H2 H3 H4] Hid Hu Hb. split; cbn [usersBooks nextId books users].
  - apply Forall_app. split.
    + eapply Forall_impl; [exact H1|]. intros x Hx. cbn beta in *. lia.
    + repeat constructor. lia.
  - rewrite map_app. apply NoDup_app. split; [exact H2|]. split.
    + intros x Hx Hx'. cbn in Hx'. apply list_elem_of_singleton in Hx'. subst x.
      apply list_elem_of_In, in_map_iff in Hx as (y & Hy & Hin).
      apply list_elem_of_In in Hin.
      pose proof (proj1 (Forall_forall _ _) H1 y Hin) as Hlt. cbn beta in Hlt. lia.
    + cbn. apply NoDup_singleton.
  - exact H3.
  - apply Forall_app. split; [exact H4|]. repeat constructor; assumption.
Qed.

Lemma filter_created_only (rows : list UsersBooks) (r : UsersBooks) u :
  Forall (fun x => id x < id r) rows -> userId r = u ->
  filter (fun x => matches (mkWhere (Some (id r)) (Some u) None) x = true) (rows ++ [r])
  = [r]
  /\ filter (fun x => matches (mkWhere (Some (id r)) (Some u) None) x = false)
       (rows ++ [r])
     = rows.
Proof.
  intros Hlt Hu.
  assert (Hr : matches (mkWhere (Some (id r)) (Some u) None) r = true)
    by (apply matches_id_user; auto).
  rewrite !filter_app. cbn. rewrite Hr.
  rewrite decide_True by reflexivity. rewrite decide_False by discriminate.
  assert (Hrows : filter (fun x => matches (mkWhere (Some (id r)) (Some u) None) x = true)
                    rows = []).
  { clear Hr. induction Hlt as [|x l Hx _ IH]; [reflexivity|].
    rewrite filter_cons, decide_False; [exact IH|].
    rewrite matches_id_user. lia. }
  rewrite Hrows, (filter_none_all _ _ Hrows), app_nil_r. split; reflexivity.
Qed.

(** X12. What [addBookToUser] has just created, [getBookForUser] finds:
    after a creating call, the single read for the same user and the new
    id returns the created row, with the book's columns overlaid with
    the provider's answer. *)
Theorem added_book_is_found E now u b bk d r ds df n imp w :
  reliable E ->
  wf (db w) ->
  u ∈ users (db w) ->
  books (db w) !! b = Some bk ->
  not_yet_added (db w) u b ->
  add_accepts now r ds df n = true ->
  provider E (quickLink bk) = inr d ->
  let created :=
    mkUsersBooks (nextId (db w)) u b (rating_or_null r) ds df (notes_or_null n) imp in
  fst (getBookForUser E u (nextId (db w))
         (snd (addBookToUser E now u b r ds df n imp w)))
  = Ok (Some (mkUserBookDetails created (obj_spread (Book_toJSON bk) d))).
Proof.
  intros Hrel Hwf Hu Hbk Hnew Hacc Hd created.
  rewrite (addBookToUser_fresh E now u b bk r ds df n imp w Hrel Hwf Hu Hbk Hnew Hacc).
  cbn [snd]. fold created.
  unfold getBookForUser, UsersBooks_findOne_include, getFromBookQuickLink. run.
  rewrite !Hrel. run. cbn [usersBooks].
  destruct (filter_created_only (usersBooks (db w)) created u) as [Hfilter _];
    [exact (wf_ids_below _ Hwf)|reflexivity|].
  cbn [id created] in Hfilter. rewrite Hfilter.
  cbn [head fmap option_fmap option_map include_book books book row bookId created].
  rewrite Hbk. run. rewrite Hd. reflexivity.
Qed.

Lemma added_book_is_found_witness :
  fst (getBookForUser demo_env 1 3
         (snd (addBookToUser demo_env 100 1 5 (Some 9) None None None false demo_world)))
  = Ok (Some (mkUserBookDetails
                (mkUsersBooks 3 1 5 (Some 9) None None None false)
                (obj_spread (Book_toJSON (mkBook 5 "volumes/five" JNull))
                   (demo_volume "volumes/five")))).
Proof.
  apply (added_book_is_found demo_env 100 1 5 (mkBook 5 "volumes/five" JNull)
           (demo_volume "volumes/five") (Some 9) None None None false demo_world).
  - exact demo_env_reliable.
  - exact demo_db_wf.
  - apply (bool_decide_unpack _). vm_compute. exact I.
  - reflexivity.
  - apply (bool_decide_unpack _). vm_compute. exact I.
  - reflexivity.
  - reflexivity.
Defined.

(** X13. Adding a book and deleting the association again gives back the
    rows there were, but not the id: the sequence has moved on, and a
    third call, adding the same book anew, creates a row with the next
    id.  Ids of deleted associations are not reused. *)
Theorem add_delete_add_takes_a_new_id E now u b bk r ds df n imp w :
  reliable E ->
  wf (db w) ->
  u ∈ users (db w) ->
  books (db w) !! b = Some bk ->
  not_yet_added (db w) u b ->
  add_accepts now r ds df n = true ->
  let w1 := snd (addBookToUser E now u b r ds df n imp w) in
  let w2 := snd (deleteBookFromUser E u (nextId (db w)) w1) in
  let w3 := snd (addBookToUser E now u b r ds df n imp w2) in
  fst (deleteBookFromUser E u (nextId (db w)) w1) = Ok tt
  /\ usersBooks (db w2) = usersBooks (db w)
  /\ nextId (db w2) = nextId (db w) + 1
  /\ usersBooks (db w3)
     = usersBooks (db w)
         ++ [mkUsersBooks (nextId (db w) + 1) u b (rating_or_null r) ds df
               (notes_or_null n) imp].
Proof.
  intros Hrel Hwf Hu Hbk Hnew Hacc.
  rewrite (addBookToUser_fresh E now u b bk r ds df n imp w Hrel Hwf Hu Hbk Hnew Hacc).
  cbn [snd].
  set (created := mkUsersBooks (nextId (db w)) u b (rating_or_null r) ds df
                    (notes_or_null n) imp).
  destruct (filter_created_only (usersBooks (db w)) created u) as [Hyes Hno];
    [exact (wf_ids_below _ Hwf)|reflexivity|].
  cbn [id created] in Hyes, Hno.
  assert (Hdel : deleteBookFromUser E u (nextId (db w))
                   (mkWorld (mkDB (users (db w)) (books (db w))
                               (usersBooks (db w) ++ [created]) (nextId (db w) + 1))
                      (trace w ++ [EvStore OpBookFindByPk; EvStore OpFindOne;
                                   EvStore OpCreate; EvStore OpFindOne]))
                 = (Ok tt,
                    mkWorld (mkDB (users (db w)) (books (db w)) (usersBooks (db w))
                               (nextId (db w) + 1))
                      ((trace w ++ [EvStore OpBookFindByPk; EvStore OpFindOne;
                                    EvStore OpCreate; EvStore OpFindOne])
                         ++ [EvStore OpDestroy]))).
  { unfold deleteBookFromUser, UsersBooks_destroy. run. rewrite !Hrel. run.
    cbn [usersBooks users books nextId]. rewrite Hyes, Hno. reflexivity. }
  rewrite Hdel. cbn [fst snd]. cbv zeta.
  split; [reflexivity|]. split; [reflexivity|]. split; [reflexivity|].
  rewrite (addBookToUser_fresh E now u b bk r ds df n imp _ Hrel); cbn [db snd];
    [reflexivity|apply wf_sequence_advanced; exact Hwf|exact Hu|exact Hbk|exact Hnew
     |exact Hacc].
Qed.

Lemma add_delete_add_takes_a_new_id_witness :
  let w1 := snd (addBookToUser demo_env 100 1 5 None None None None false demo_world) in
  let w2 := snd (deleteBookFromUser demo_env 1 3 w1) in
  let w3 := snd (addBookToUser demo_env 100 1 5 None None None None false w2) in
  fst (deleteBookFromUser demo_env 1 3 w1) = Ok tt
  /\ usersBooks (db w2) = usersBooks demo_db
  /\ nextId (db w2) = 4
  /\ usersBooks (db w3)
     = usersBooks demo_db ++ [mkUsersBooks 4 1 5 None None None None false].
Proof.
  apply (add_delete_add_takes_a_new_id demo_env 100 1 5
           (mkBook 5 "volumes/five" JNull) None None None None false demo_world).
  - exact demo_env_reliable.
  - exact demo_db_wf.
  - apply (bool_decide_unpack _). vm_compute. exact I.
  - reflexivity.
  - apply (bool_decide_unpack _). vm_compute. exact I.
  - reflexivity.
Defined.

Lemma filter_filter_out {A} (P : A -> bool) (l : list A) :
  filter (fun x => P x = true) (filter (fun x => P x = false) l) = [].
Proof.
  induction l as [|x l IH]; [reflexivity|].
  rewrite filter_cons. destruct (P x) eqn:HP.
  - rewrite decide_False by discriminate. exact IH.
  - rewrite decide_True by reflexivity.
    rewrite filter_cons, decide_False by (rewrite HP; discriminate). exact IH.
Qed.

(** X14. Deleting is not repeatable: once [deleteBookFromUser u a] has
    gone through, whether it found something to delete or not, the same
    call made again on a store that answers rejects with "Book not
    found" and changes nothing. *)
Theorem deleteBookFromUser_again_is_not_found E u a w :
  reliable E ->
  let w1 := snd (deleteBookFromUser E u a w) in
  fst (deleteBookFromUser E u a w1) = Err (newError msg_not_found)
  /\ db (snd (deleteBookFromUser E u a w1)) = db w1.
Proof.
  intros Hrel.
  assert (Hw1 : usersBooks (db (snd (deleteBookFromUser E u a w)))
                = filter (fun r => matches (mkWhere (Some a) (Some u) None) r = false)
                    (usersBooks (db w))).
  { unfold deleteBookFromUser, UsersBooks_destroy. run. rewrite Hrel. run.
    destruct (_ =? _)%nat; reflexivity. }
  intros w1. fold w1 in Hw1.
  unfold deleteBookFromUser, UsersBooks_destroy. run. rewrite !Hrel. run.
  rewrite Hw1, filter_filter_out. cbn [length Nat.eqb fst snd db surfaced newError].
  split; [reflexivity|].
  rewrite (filter_none_all _ _ (filter_filter_out _ _)).
  rewrite <- Hw1. destruct (db w1); reflexivity.
Qed.

Lemma deleteBookFromUser_again_is_not_found_witness :
  fst (deleteBookFromUser demo_env 1 1 demo_world) = Ok tt
  /\ fst (deleteBookFromUser demo_env 1 1 (snd (deleteBookFromUser demo_env 1 1 demo_world)))
     = Err (newError msg_not_found).
Proof.
  split; [reflexivity|].
  apply (deleteBookFromUser_again_is_not_found demo_env 1 1 demo_world
           demo_env_reliable).
Defined.

Lemma service_preserves_wf_witness :
  wf (db (snd (addBookToUser demo_env 100 1 5 (Some 9) None None None false demo_world)))
  /\ wf (db (snd (getBooksForUser failing_env 2 demo_world)))
  /\ wf (db (snd (deleteBookFromUser offline_env 1 1 demo_world))).
Proof.
  split; [|split].
  - apply (service_preserves_wf demo_env). exact demo_db_wf.
  - apply (service_preserves_wf failing_env). exact demo_db_wf.
  - apply (service_preserves_wf offline_env). exact demo_db_wf.
Defined.

(** X16. Listing is repeatable: on a well-formed store that answers,
    with a provider whose answers are valid metadata, a successful
    [getBooksForUser] followed by the same call returns the same list,
    entry for entry; what the first call fetched, the second reads from
    the cache. *)
Theorem getBooksForUser_twice_same_answer E u w out :
  reliable E ->
  wf (db w) ->
  (forall link d, provider E link = inr d -> valid_cache (JObj d)) ->
  fst (getBooksForUser E u w) = Ok out ->
  fst (getBooksForUser E u (snd (getBooksForUser E u w))) = Ok out.
Proof.
  intros Hrel Hwf Hvalid Hout.
  pose proof (getBooksForUser_entries E u w Hrel out Hout) as Hall.
  pose proof (associations_snapshot (db w) u Hwf) as Hsnap.
  pose proof (getBooksForUser_closed E Hrel u w) as Hres. cbv zeta in Hres.
  set (l := associations_of (db w) u) in *.
  set (m1 := fold_left (books_after E) l (books (db w))) in *.
  assert (Hfst : all_fulfilled (map (outcome_of E) l) = Ok out).
  { rewrite Hres in Hout. cbn [fst] in Hout.
    destruct (all_fulfilled (map (outcome_of E) l)); congruence. }
  rewrite (getBooksForUser_closed E Hrel u (snd (getBooksForUser E u w))).
  cbn [fst]. rewrite Hres. cbn [snd db].
  assert (Hsame : map (outcome_of E) (associations_of (with_books (db w) m1) u)
                  = map (outcome_of E) l).
  { unfold l, associations_of. cbn [with_books usersBooks]. rewrite !map_map.
    apply map_ext_in. intros r Hr. apply list_elem_of_In in Hr.
    apply list_elem_of_filter in Hr as [Hm Hr]. apply matches_user in Hm.
    pose proof (associations_elem_of (db w) u r Hr Hm) as Hj. fold l in Hj.
    pose proof Hj as Hi. apply list_elem_of_lookup in Hi as [i Hi].
    destruct (Forall2_lookup_l _ _ _ _ _ Hall Hi) as (e & _ & He).
    unfold outcome_of in He |- *. cbn [include_book book row with_books books] in *.
    destruct (books (db w) !! bookId r) as [bk|] eqn:Hbk; [|discriminate].
    pose proof (wf_book_keys _ Hwf _ _ Hbk) as Hkey.
    destruct (needsRefresh (bookDetails bk)) eqn:Hstale.
    - destruct (provider E (quickLink bk)) as [t|d] eqn:Hd; [discriminate|].
      destruct (fold_refreshed E (books (db w)) l (books (db w))
                  (include_book (db w) r) bk d Hsnap (tracks_refl E _) Hj Hbk Hstale Hd)
        as (bk' & d' & H0 & _ & Hd' & Hm1).
      rewrite Hkey in H0, Hm1. rewrite Hbk in H0. injection H0 as <-.
      rewrite Hd in Hd'. injection Hd' as <-. fold m1 in Hm1. rewrite Hm1.
      cbn [bookDetails set_bookDetails quickLink].
      rewrite (proj2 (needsRefresh_false_iff _) (Hvalid _ _ Hd)). reflexivity.
    - destruct (fold_tracks E (books (db w)) l (books (db w)) Hsnap
                  (tracks_refl E _) (bookId r)) as [Hsame|Href].
      + fold m1 in Hsame. rewrite Hsame, Hbk, Hstale. reflexivity.
      + destruct Href as (bk' & d' & H0 & Hstale' & _).
        rewrite Hbk in H0. injection H0 as <-. congruence. }
  rewrite Hsame, Hfst. reflexivity.
Qed.

Lemma getBooksForUser_twice_same_answer_witness :
  exists out,
    fst (getBooksForUser demo_env 2 demo_world) = Ok out
    /\ fst (getBooksForUser demo_env 2 (snd (getBooksForUser demo_env 2 demo_world)))
       = Ok out.
Proof.
  assert (Hout : fst (getBooksForUser demo_env 2 demo_world)
                 = Ok [mkUserBookDetails
                         (mkUsersBooks 2 2 5 None None None (Some "to read") false)
                         (listed_book (mkBook 5 "volumes/five" JNull)
                            (JObj (demo_volume "volumes/five")))]).
  { vm_compute. reflexivity. }
  eexists. split; [exact Hout|].
  exact (getBooksForUser_twice_same_answer demo_env 2 demo_world _
           demo_env_reliable demo_db_wf demo_provider_valid Hout).
Defined.


(** * Properties of the client *)

Lemma requests_in_app t1 t2 :
  requests_in (t1 ++ t2) = requests_in t1 ++ requests_in t2.
Proof.
  induction t1 as [|e t1 IH]; [reflexivity|].
  destruct e; cbn; rewrite ?IH; reflexivity.
Qed.

Lemma refreshes_in_app t1 t2 :
  refreshes_in (t1 ++ t2) = (refreshes_in t1 + refreshes_in t2)%nat.
Proof.
  induction t1 as [|e t1 IH]; [reflexivity|].
  destruct e; cbn; rewrite ?IH; reflexivity.
Qed.

Section ClientProperties.
Variable C : ClientEnv.
Variable path : string.
Variable options : Options.
Variable useAuthHeader : bool.

Lemma useMyFetch_unfold fuel t :
  useMyFetch C path options useAuthHeader fuel t
  = match token_read C t with
    | inl error =>
        Some (Err error,
              t ++ [EvPreferencesGet "access_token";
                    EvConsoleError "Fetch error:" error])
    | inr (token, t1) =>
        match fetchWithToken C path options useAuthHeader fuel token t1 with
        | None => None
        | Some (res, t') => Some (res, t' ++ console_error res)
        end
    end.
Proof.
  unfold useMyFetch, token_read. destruct (process_client C).
  - destruct (Preferences_get C t "access_token") as [e|token].
    + rewrite <- app_assoc. reflexivity.
    + destruct (fetchWithToken _ _ _ _ _ _ _) as [[[v|e] t']|]; cbn;
        rewrite ?app_nil_r; reflexivity.
  - destruct (fetchWithToken _ _ _ _ _ _ _) as [[[v|e] t']|]; cbn;
      rewrite ?app_nil_r; reflexivity.
Qed.

(** The trace only grows, and every request in what is added is the
    request of the call for some token. *)
Lemma fetchWithToken_trace fuel token t res t' :
  fetchWithToken C path options useAuthHeader fuel token t = Some (res, t') ->
  exists extra,
    t' = t ++ extra
    /\ Forall (fun r => exists tok, r = request_for C path options useAuthHeader tok)
         (requests_in extra)
    /\ (refreshes_in extra <= length (requests_in extra) <= refreshes_in extra + 1)%nat
    /\ (1 <= length (requests_in extra))%nat
    /\ (process_client C = false -> extra = [EvRequest
           (request_for C path options useAuthHeader token)]).
Proof.
  revert token t res t'. induction fuel as [|fuel IH]; intros token t res t' Hrun;
    [discriminate|].
  cbn [fetchWithToken] in Hrun.
  set (req := request_for C path options useAuthHeader token) in *.
  assert (Hone : forall res0, Some (res0, t ++ [EvRequest req]) = Some (res, t') ->
            exists extra,
              t' = t ++ extra
              /\ Forall (fun r => exists tok,
                            r = request_for C path options useAuthHeader tok)
                   (requests_in extra)
              /\ (refreshes_in extra <= length (requests_in extra)
                  <= refreshes_in extra + 1)%nat
              /\ (1 <= length (requests_in extra))%nat
              /\ (process_client C = false -> extra = [EvRequest req])).
  { intros res0 [= _ <-]. exists [EvRequest req]. split; [reflexivity|].
    split; [repeat constructor; exists token; reflexivity|]. cbn.
    split; [lia|]. split; [lia|reflexivity]. }
  destruct (fetch C t req) as [e|resp]; [exact (Hone _ Hrun)|].
  destruct (resp_status resp =? 401).
  - destruct (process_client C) eqn:Hclient; [|exact (Hone _ Hrun)].
    destruct (refreshAccessToken C (t ++ [EvRequest req])) as [e|newToken].
    + injection Hrun as _ <-. exists [EvRequest req; EvRefresh].
      rewrite <- app_assoc. split; [reflexivity|].
      split; [repeat constructor; exists token; reflexivity|]. cbn.
      split; [lia|]. split; [lia|discriminate].
    + destruct (truthy_token newToken).
      * destruct (fetchWithToken C path options useAuthHeader fuel newToken _)
          as [[res1 t3]|] eqn:Hrec; [|discriminate].
        destruct (IH _ _ _ _ Hrec) as (extra & -> & Hreqs & Hcount & Hpos & _).
        assert (Ht' : t' = ((t ++ [EvRequest req]) ++ [EvRefresh]) ++ extra)
          by (destruct res1; injection Hrun as _ <-; reflexivity).
        exists (EvRequest req :: EvRefresh :: extra).
        rewrite Ht', <- !app_assoc. split; [reflexivity|].
        cbn [requests_in refreshes_in length].
        split; [constructor; [exists token; reflexivity|exact Hreqs]|].
        split; [lia|]. split; [lia|discriminate].
      * injection Hrun as _ <-.
        exists [EvRequest req; EvRefresh; EvLogout; EvNavigate "/login"].
        rewrite <- !app_assoc. split; [reflexivity|].
        split; [repeat constructor; exists token; reflexivity|]. cbn.
        split; [lia|]. split; [lia|discriminate].
  - destruct (negb (resp_ok resp)); [exact (Hone _ Hrun)|].
    destruct (not_json (resp_content_type resp)); [exact (Hone _ Hrun)|].
    destruct (resp_json resp); exact (Hone _ Hrun).
Qed.

(** Requests and refreshes take turns in what [fetchWithToken] adds to
    the trace, starting with a request. *)
Lemma fetchWithToken_alternates fuel token t res t' :
  fetchWithToken C path options useAuthHeader fuel token t = Some (res, t') ->
  exists extra, t' = t ++ extra /\ alternates true extra = true.
Proof.
  revert token t res t'. induction fuel as [|fuel IH]; intros token t res t' Hrun;
    [discriminate|].
  cbn [fetchWithToken] in Hrun.
  set (req := request_for C path options useAuthHeader token) in *.
  assert (Hone : forall res0, Some (res0, t ++ [EvRequest req]) = Some (res, t') ->
            exists extra, t' = t ++ extra /\ alternates true extra = true).
  { intros res0 [= _ <-]. exists [EvRequest req]. split; reflexivity. }
  destruct (fetch C t req) as [e|resp]; [exact (Hone _ Hrun)|].
  destruct (resp_status resp =? 401).
  - destruct (process_client C) eqn:Hclient; [|exact (Hone _ Hrun)].
    destruct (refreshAccessToken C (t ++ [EvRequest req])) as [e|newToken].
    + injection Hrun as _ <-. exists [EvRequest req; EvRefresh].
      rewrite <- app_assoc. split; reflexivity.
    + destruct (truthy_token newToken).
      * destruct (fetchWithToken C path options useAuthHeader fuel newToken _)
          as [[res1 t3]|] eqn:Hrec; [|discriminate].
        destruct (IH _ _ _ _ Hrec) as (extra & -> & Halt).
        assert (Ht' : t' = ((t ++ [EvRequest req]) ++ [EvRefresh]) ++ extra)
          by (destruct res1; injection Hrun as _ <-; reflexivity).
        exists (EvRequest req :: EvRefresh :: extra).
        rewrite Ht', <- !app_assoc. split; [reflexivity|].
        cbn [alternates andb negb]. exact Halt.
      * injection Hrun as _ <-.
        exists [EvRequest req; EvRefresh; EvLogout; EvNavigate "/login"].
        rewrite <- !app_assoc. split; reflexivity.
  - destruct (negb (resp_ok resp)); [exact (Hone _ Hrun)|].
    destruct (not_json (resp_content_type resp)); [exact (Hone _ Hrun)|].
    destruct (resp_json resp); exact (Hone _ Hrun).
Qed.

End ClientProperties.

(** The error written to the console is neither a request nor a refresh. *)
Lemma alternates_console_error b t res :
  alternates b (t ++ console_error res) = alternates b t.
Proof.
  revert b. induction t as [|e t IH]; intros b.
  - destruct res; reflexivity.
  - destruct e; cbn [app alternates]; rewrite ?IH; reflexivity.
Qed.

(** After a request, the next request comes after a refresh. *)
Lemma alternates_refresh_before_next between r after :
  alternates false (between ++ EvRequest r :: after) = true ->
  EvRefresh ∈ between.
Proof.
  induction between as [|e between IH]; cbn [app alternates andb].
  - discriminate.
  - destruct e; cbn [alternates andb negb]; try discriminate;
      try (intros H; apply list_elem_of_further, IH, H).
    intros _. apply list_elem_of_here.
Qed.

(** Where requests and refreshes take turns, a refresh lies between any
    two requests. *)
Lemma alternates_refresh_between b before r1 between r2 after :
  alternates b (before ++ EvRequest r1 :: between ++ EvRequest r2 :: after) = true ->
  EvRefresh ∈ between.
Proof.
  revert b. induction before as [|e before IH]; intros b.
  - cbn [app alternates]. intros [_ H]%andb_prop.
    exact (alternates_refresh_before_next _ _ _ H).
  - destruct e; cbn [app alternates]; try apply IH.
    + intros [_ H]%andb_prop. exact (IH _ H).
    + intros [_ H]%andb_prop. exact (IH _ H).
Qed.

(** After a refresh, the next refresh comes after a request. *)
Lemma alternates_request_before_next between after :
  alternates true (between ++ EvRefresh :: after) = true ->
  exists r, EvRequest r ∈ between.
Proof.
  induction between as [|e between IH]; cbn [app alternates andb negb].
  - discriminate.
  - destruct e; cbn [alternates andb negb]; try discriminate.
    2: intros _; eexists; apply list_elem_of_here.
    all: intros H; destruct (IH H) as [r Hr]; exists r;
      apply list_elem_of_further, Hr.
Qed.

(** Where requests and refreshes take turns, a request lies between any
    two refreshes. *)
Lemma alternates_request_between b before between after :
  alternates b (before ++ EvRefresh :: between ++ EvRefresh :: after) = true ->
  exists r, EvRequest r ∈ between.
Proof.
  revert b. induction before as [|e before IH]; intros b.
  - cbn [app alternates]. intros [_ H]%andb_prop.
    exact (alternates_request_before_next _ _ H).
  - destruct e; cbn [app alternates]; try apply IH.
    + intros [_ H]%andb_prop. exact (IH _ H).
    + intros [_ H]%andb_prop. exact (IH _ H).
Qed.

Lemma request_headers_lookup useAuthHeader token options k :
  NoDup (map fst (caller_headers options)) ->
  obj_get k (request_headers useAuthHeader token options)
  = match obj_get k (caller_headers options) with
    | Some v => Some v
    | None =>
        match obj_get k (authorization useAuthHeader token) with
        | Some v => Some v
        | None => obj_get k [("Content-Type", JStr "application/json")]
        end
    end.
Proof.
  intros Hnd. unfold request_headers. fold (caller_headers options).
  rewrite (obj_get_spread _ _ _ Hnd).
  destruct (obj_get k (caller_headers options)); [reflexivity|].
  apply obj_get_spread. unfold authorization.
  destruct token as [s|]; [|constructor].
  destruct (useAuthHeader && truthy_token (Some s)); [|constructor].
  cbn. apply NoDup_singleton.
Qed.

Lemma no_authorization_without_flag token k :
  obj_get k (authorization false token) = None.
Proof. destruct token; reflexivity. Qed.

(** ** What [useMyFetch] sends *)

(** X17. Every request a finished [useMyFetch] has sent goes to
    [baseUrl + path] with the method of the options ([GET] when none is
    given); each header the caller passed is sent with the caller's
    value, also when it is [Content-Type] or [Authorization]; and with
    [useAuthHeader] off, no [Authorization] header is sent unless the
    caller passed one. *)
Theorem useMyFetch_requests C path options useAuthHeader fuel t res t' :
  NoDup (map fst (caller_headers options)) ->
  useMyFetch C path options useAuthHeader fuel t = Some (res, t') ->
  exists extra,
    t' = t ++ extra
    /\ Forall
         (fun r =>
            req_url r = baseUrl C +:+ path
            /\ req_method r = request_method options
            /\ (forall k v, obj_get k (caller_headers options) = Some v ->
                            obj_get k (req_headers r) = Some v)
            /\ (useAuthHeader = false ->
                obj_get "Authorization" (caller_headers options) = None ->
                obj_get "Authorization" (req_headers r) = None))
         (requests_in extra).
Proof.
  intros Hnd Hrun. rewrite useMyFetch_unfold in Hrun.
  assert (Hreq : forall tok,
             let r := request_for C path options useAuthHeader tok in
             req_url r = baseUrl C +:+ path
             /\ req_method r = request_method options
             /\ (forall k v, obj_get k (caller_headers options) = Some v ->
                             obj_get k (req_headers r) = Some v)
             /\ (useAuthHeader = false ->
                 obj_get "Authorization" (caller_headers options) = None ->
                 obj_get "Authorization" (req_headers r) = None)).
  { intros tok r. split; [reflexivity|]. split; [reflexivity|]. split.
    - intros k v Hk. unfold r. cbn [req_headers request_for].
      rewrite (request_headers_lookup _ _ _ _ Hnd), Hk. reflexivity.
    - intros -> Hcaller. unfold r. cbn [req_headers request_for].
      rewrite (request_headers_lookup _ _ _ _ Hnd), Hcaller.
      rewrite no_authorization_without_flag. reflexivity. }
  unfold token_read in Hrun. destruct (process_client C).
  - destruct (Preferences_get C t "access_token") as [e|token].
    + injection Hrun as _ <-. eexists. split; [reflexivity|]. constructor.
    + destruct (fetchWithToken _ _ _ _ _ _ _) as [[res1 t1]|] eqn:Hrec;
        [|discriminate].
      injection Hrun as _ <-.
      destruct (fetchWithToken_trace _ _ _ _ _ _ _ _ _ Hrec)
        as (extra & -> & Hreqs & _).
      exists ([EvPreferencesGet "access_token"] ++ extra ++ console_error res1).
      rewrite <- !app_assoc. split; [reflexivity|].
      cbn [app requests_in]. rewrite requests_in_app.
      replace (requests_in (console_error res1)) with (@nil Request)
        by (destruct res1; reflexivity).
      rewrite app_nil_r. eapply Forall_impl; [exact Hreqs|].
      intros r [tok ->]. apply Hreq.
  - destruct (fetchWithToken _ _ _ _ _ _ _) as [[res1 t1]|] eqn:Hrec;
      [|discriminate].
    injection Hrun as _ <-.
    destruct (fetchWithToken_trace _ _ _ _ _ _ _ _ _ Hrec)
      as (extra & -> & Hreqs & _).
    exists (extra ++ console_error res1).
    rewrite <- !app_assoc. split; [reflexivity|].
    rewrite requests_in_app.
    replace (requests_in (console_error res1)) with (@nil Request)
      by (destruct res1; reflexivity).
    rewrite app_nil_r. eapply Forall_impl; [exact Hreqs|].
    intros r [tok ->]. apply Hreq.
Qed.

(** Requests and refreshes take turns in what a finished [useMyFetch]
    adds to the trace. *)
Lemma useMyFetch_alternates C path options useAuthHeader fuel t res t' :
  useMyFetch C path options useAuthHeader fuel t = Some (res, t') ->
  exists extra, t' = t ++ extra /\ alternates true extra = true.
Proof.
  intros Hrun. rewrite useMyFetch_unfold in Hrun.
  unfold token_read in Hrun. destruct (process_client C).
  - destruct (Preferences_get C t "access_token") as [e|token].
    + injection Hrun as _ <-. eexists. split; reflexivity.
    + destruct (fetchWithToken _ _ _ _ _ _ _) as [[res1 t1]|] eqn:Hrec;
        [|discriminate].
      injection Hrun as _ <-.
      destruct (fetchWithToken_alternates _ _ _ _ _ _ _ _ _ Hrec)
        as (extra & -> & Halt).
      exists ([EvPreferencesGet "access_token"] ++ extra ++ console_error res1).
      rewrite <- !app_assoc. split; [reflexivity|].
      cbn [app alternates]. rewrite alternates_console_error. exact Halt.
  - destruct (fetchWithToken _ _ _ _ _ _ _) as [[res1 t1]|] eqn:Hrec;
      [|discriminate].
    injection Hrun as _ <-.
    destruct (fetchWithToken_alternates _ _ _ _ _ _ _ _ _ Hrec)
      as (extra & -> & Halt).
    exists (extra ++ console_error res1).
    rewrite <- !app_assoc. split; [reflexivity|].
    rewrite alternates_console_error. exact Halt.
Qed.

(** X18. A finished [useMyFetch] never repeats a request without having
    refreshed the token in between: in what it adds to the trace, requests
    and calls of [refreshAccessToken] take turns, starting with a request;
    so between any two of its requests, whatever else happened, the token
    was refreshed, and between any two refreshes a request was sent. *)
Theorem useMyFetch_refreshes_between_requests
    C path options useAuthHeader fuel t res t' :
  useMyFetch C path options useAuthHeader fuel t = Some (res, t') ->
  exists extra,
    t' = t ++ extra
    /\ alternates true extra = true
    /\ (forall before r1 between r2 after,
          extra = before ++ EvRequest r1 :: between ++ EvRequest r2 :: after ->
          EvRefresh ∈ between)
    /\ (forall before between after,
          extra = before ++ EvRefresh :: between ++ EvRefresh :: after ->
          exists r, EvRequest r ∈ between).
Proof.
  intros Hrun.
  destruct (useMyFetch_alternates _ _ _ _ _ _ _ _ Hrun) as (extra & -> & Halt).
  exists extra. split; [reflexivity|]. split; [exact Halt|]. split.
  - intros before r1 between r2 after ->.
    exact (alternates_refresh_between _ _ _ _ _ _ Halt).
  - intros before between after ->.
    exact (alternates_request_between _ _ _ _ Halt).
Qed.

Lemma useMyFetch_refreshes_between_requests_witness :
  exists extra,
    [EvPreferencesGet "access_token";
     EvRequest (request_for (demo_browser picky_server fresh_refresh) "/books"
                  demo_options true (Some "stale-token"));
     EvRefresh;
     EvRequest (request_for (demo_browser picky_server fresh_refresh) "/books"
                  demo_options true (Some "fresh-token"))]
    = [] ++ extra
    /\ alternates true extra = true
    /\ (forall before r1 between r2 after,
          extra = before ++ EvRequest r1 :: between ++ EvRequest r2 :: after ->
          EvRefresh ∈ between)
    /\ (forall before between after,
          extra = before ++ EvRefresh :: between ++ EvRefresh :: after ->
          exists r, EvRequest r ∈ between).
Proof.
  apply (useMyFetch_refreshes_between_requests
           (demo_browser picky_server fresh_refresh) "/books"
           demo_options true 5 [] (Ok books_json)).
  vm_compute. reflexivity.
Defined.

(** ** One response *)

(** X19. On the server side of the rendering ([process.client] false)
    [useMyFetch] always finishes after exactly one request, made without
    a token; it reads no stored token, refreshes nothing, logs nobody out
    and navigates nowhere; and a 401 is answered with [null], not with
    an error. *)
Theorem useMyFetch_on_the_server C path options useAuthHeader fuel t :
  process_client C = false ->
  let req := request_for C path options useAuthHeader None in
  exists res,
    useMyFetch C path options useAuthHeader (S fuel) t
    = Some (res, t ++ EvRequest req :: console_error res)
    /\ (forall resp, fetch C t req = inr resp -> resp_status resp = 401 ->
                     res = Ok JNull).
Proof.
  intros Hssr req. rewrite useMyFetch_unfold. unfold token_read. rewrite Hssr.
  cbn [fetchWithToken]. fold req.
  destruct (fetch C t req) as [e|resp] eqn:Hfetch.
  - eexists. rewrite <- app_assoc. split; [reflexivity|]. discriminate.
  - destruct (resp_status resp =? 401) eqn:H401.
    + rewrite Hssr. exists (Ok JNull). rewrite <- app_assoc.
      split; [reflexivity|reflexivity].
    + destruct (negb (resp_ok resp)).
      { eexists. rewrite <- app_assoc. split; [reflexivity|].
        intros resp' [= <-] Hs. rewrite Hs in H401. discriminate. }
      destruct (not_json (resp_content_type resp)).
      { eexists. rewrite <- app_assoc. split; [reflexivity|].
        intros resp' [= <-] Hs. rewrite Hs in H401. discriminate. }
      destruct (resp_json resp) as [e|v]; eexists; rewrite <- app_assoc;
        (split; [reflexivity|]); intros resp' [= <-] Hs; rewrite Hs in H401;
        discriminate.
Qed.

Lemma useMyFetch_on_the_server_witness :
  useMyFetch (demo_ssr locked_server) "/books" demo_options true 1 []
  = Some (Ok JNull,
          [EvRequest (request_for (demo_ssr locked_server) "/books" demo_options
                        true None)]).
Proof.
  destruct (useMyFetch_on_the_server (demo_ssr locked_server) "/books"
              demo_options true 0 [] eq_refl) as (res & Hrun & H401).
  rewrite (H401 unauthorized eq_refl eq_refl) in Hrun. exact Hrun.
Defined.

(** X20. A response other than 401 is returned as parsed JSON only if it
    is [ok] and its content type contains [application/json]; a response
    that is not [ok] is an error "HTTP error! status: " followed by the
    status, an [ok] response of another content type is an error
    "Invalid content-type, expected application/json".  One request is
    made, and an error is logged once. *)
Theorem useMyFetch_one_response C path options useAuthHeader fuel t token t1 resp :
  token_read C t = inr (token, t1) ->
  fetch C t1 (request_for C path options useAuthHeader token) = inr resp ->
  resp_status resp <> 401 ->
  let res :=
    if negb (resp_ok resp) then
      Err (newError ("HTTP error! status: " +:+ pretty (resp_status resp)))
    else if not_json (resp_content_type resp) then
      Err (newError "Invalid content-type, expected application/json")
    else match resp_json resp with
         | inl error => Err error
         | inr v => Ok v
         end in
  useMyFetch C path options useAuthHeader (S fuel) t
  = Some (res,
          t1 ++ EvRequest (request_for C path options useAuthHeader token)
             :: console_error res).
Proof.
  intros Htoken Hfetch Hstatus res. rewrite useMyFetch_unfold, Htoken.
  cbn [fetchWithToken]. rewrite Hfetch.
  rewrite (proj2 (Z.eqb_neq _ _) Hstatus). subst res.
  destruct (negb (resp_ok resp)).
  { rewrite <- app_assoc. reflexivity. }
  destruct (not_json (resp_content_type resp)).
  { rewrite <- app_assoc. reflexivity. }
  destruct (resp_json resp); rewrite <- app_assoc; reflexivity.
Qed.

Lemma useMyFetch_one_response_witness :
  useMyFetch (demo_ssr down_server) "/books" demo_options true 1 []
  = Some (Err (newError "HTTP error! status: 503"),
          [EvRequest (request_for (demo_ssr down_server) "/books" demo_options
                        true None);
           EvConsoleError "Fetch error:" (newError "HTTP error! status: 503")]).
Proof.
  apply (useMyFetch_one_response (demo_ssr down_server)
           "/books" demo_options true 0 [] None [] unavailable eq_refl eq_refl).
  cbn. lia.
Defined.

(** X21. When [fetch] itself throws an error whose message is "Failed to
    fetch", the caller gets a new error "Network error, please try again
    later"; an error with any other message is rethrown as it is, class
    and message.  Either way there was one request and the error is
    logged once. *)
Theorem useMyFetch_network_failure
    C path options useAuthHeader fuel t token t1 name message :
  token_read C t = inr (token, t1) ->
  fetch C t1 (request_for C path options useAuthHeader token)
  = inl (ThrownError name message) ->
  let error :=
    if String.eqb message "Failed to fetch"
    then newError "Network error, please try again later"
    else ThrownError name message in
  useMyFetch C path options useAuthHeader (S fuel) t
  = Some (Err error,
          t1 ++ [EvRequest (request_for C path options useAuthHeader token);
                 EvConsoleError "Fetch error:" error]).
Proof.
  intros Htoken Hfetch error. rewrite useMyFetch_unfold, Htoken.
  cbn [fetchWithToken]. rewrite Hfetch. cbn [caught_by_fetchWithToken console_error].
  rewrite <- app_assoc. reflexivity.
Qed.

Lemma useMyFetch_network_failure_witness :
  useMyFetch (demo_browser no_network fresh_refresh) "/books" demo_options true 1 []
  = Some (Err (newError "Network error, please try again later"),
          [EvPreferencesGet "access_token";
           EvRequest (request_for (demo_browser no_network fresh_refresh) "/books"
                        demo_options true (Some "stale-token"));
           EvConsoleError "Fetch error:"
             (newError "Network error, please try again later")]).
Proof.
  apply (useMyFetch_network_failure (demo_browser no_network fresh_refresh)
           "/books" demo_options true 0 [] (Some "stale-token")
           [EvPreferencesGet "access_token"] "TypeError" "Failed to fetch");
    reflexivity.
Defined.

(** ** The 401 and the token *)

(** X22. In the browser, when the response is a 401 and
    [refreshAccessToken] yields no token ([null] or the empty string),
    [useMyFetch] logs the user out and returns what [navigateTo('/login')]
    returns: it makes no second request and logs no error. *)
Theorem useMyFetch_failed_refresh_logs_out
    C path options useAuthHeader fuel t token t1 resp newToken :
  process_client C = true ->
  token_read C t = inr (token, t1) ->
  let req := request_for C path options useAuthHeader token in
  fetch C t1 req = inr resp ->
  resp_status resp = 401 ->
  refreshAccessToken C (t1 ++ [EvRequest req]) = inr newToken ->
  truthy_token newToken = false ->
  useMyFetch C path options useAuthHeader (S fuel) t
  = Some (Ok (navigateTo C "/login"),
          t1 ++ [EvRequest req; EvRefresh; EvLogout; EvNavigate "/login"]).
Proof.
  intros Hclient Htoken req Hfetch H401 Hrefresh Hfalsy.
  rewrite useMyFetch_unfold, Htoken. cbn [fetchWithToken]. fold req.
  rewrite Hfetch, H401, Hclient, Hrefresh, Hfalsy. cbn [Z.eqb Pos.eqb console_error].
  rewrite app_nil_r, <- !app_assoc. reflexivity.
Qed.

Lemma useMyFetch_failed_refresh_logs_out_witness :
  useMyFetch (demo_browser locked_server expired_refresh) "/books" demo_options true 1 []
  = Some (Ok (JStr "/login"),
          [EvPreferencesGet "access_token";
           EvRequest (request_for (demo_browser locked_server expired_refresh)
                        "/books" demo_options true (Some "stale-token"));
           EvRefresh; EvLogout; EvNavigate "/login"]).
Proof.
  apply (useMyFetch_failed_refresh_logs_out
           (demo_browser locked_server expired_refresh) "/books" demo_options
           true 0 [] (Some "stale-token") [EvPreferencesGet "access_token"]
           unauthorized None); reflexivity.
Defined.

(** X23. In the browser, when the response is a 401, the refresh yields
    a token and the server then answers an [ok] JSON response,
    [useMyFetch] returns the parsed JSON of the second response after
    exactly two requests; with [useAuthHeader] on and no [Authorization]
    header from the caller, the second request carries the refreshed token
    as its bearer. *)
Theorem useMyFetch_retries_with_the_new_token
    C path options useAuthHeader fuel t token t1 resp1 fresh resp2 v :
  process_client C = true ->
  token_read C t = inr (token, t1) ->
  let req1 := request_for C path options useAuthHeader token in
  let req2 := request_for C path options useAuthHeader (Some fresh) in
  fetch C t1 req1 = inr resp1 ->
  resp_status resp1 = 401 ->
  refreshAccessToken C (t1 ++ [EvRequest req1]) = inr (Some fresh) ->
  fresh <> EmptyString ->
  fetch C (t1 ++ [EvRequest req1; EvRefresh]) req2 = inr resp2 ->
  resp_status resp2 <> 401 ->
  resp_ok resp2 = true ->
  not_json (resp_content_type resp2) = false ->
  resp_json resp2 = inr v ->
  useMyFetch C path options useAuthHeader (S (S fuel)) t
  = Some (Ok v, t1 ++ [EvRequest req1; EvRefresh; EvRequest req2])
  /\ (useAuthHeader = true ->
      NoDup (map fst (caller_headers options)) ->
      obj_get "Authorization" (caller_headers options) = None ->
      obj_get "Authorization" (req_headers req2) = Some (JStr ("Bearer " +:+ fresh))).
Proof.
  intros Hclient Htoken req1 req2 Hfetch1 H401 Hrefresh Hfresh Hfetch2 Hstatus2
    Hok2 Hjson2 Hv.
  split.
  - rewrite useMyFetch_unfold, Htoken.
    cbn [fetchWithToken]. fold req1.
    rewrite Hfetch1, H401, Hclient, Hrefresh. cbn [Z.eqb Pos.eqb truthy_token].
    rewrite (proj2 (String.eqb_neq _ _) Hfresh). cbn [negb].
    replace ((t1 ++ [EvRequest req1]) ++ [EvRefresh])
      with (t1 ++ [EvRequest req1; EvRefresh])
      by (rewrite <- app_assoc; reflexivity).
    cbn [fetchWithToken]. fold req2. rewrite Hfetch2.
    rewrite (proj2 (Z.eqb_neq _ _) Hstatus2), Hok2, Hjson2, Hv.
    cbn [negb console_error]. rewrite app_nil_r, <- !app_assoc. reflexivity.
  - intros -> Hnd Hcaller. unfold req2. cbn [req_headers request_for].
    rewrite (request_headers_lookup _ _ _ _ Hnd), Hcaller.
    cbn [authorization truthy_token andb].
    rewrite (proj2 (String.eqb_neq _ _) Hfresh). reflexivity.
Qed.

Lemma useMyFetch_retries_with_the_new_token_witness :
  useMyFetch (demo_browser picky_server fresh_refresh) "/books" demo_options true 2 []
  = Some (Ok books_json,
          [EvPreferencesGet "access_token";
           EvRequest (request_for (demo_browser picky_server fresh_refresh) "/books"
                        demo_options true (Some "stale-token"));
           EvRefresh;
           EvRequest (request_for (demo_browser picky_server fresh_refresh) "/books"
                        demo_options true (Some "fresh-token"))]).
Proof.
  apply (useMyFetch_retries_with_the_new_token
           (demo_browser picky_server fresh_refresh) "/books" demo_options true 0 []
           (Some "stale-token") [EvPreferencesGet "access_token"]
           unauthorized "fresh-token" books_response books_json);
    try reflexivity; discriminate.
Defined.

Lemma fetchWithToken_never_gives_up C path options useAuthHeader :
  process_client C = true ->
  (forall t r, exists resp, fetch C t r = inr resp /\ resp_status resp = 401) ->
  (forall t, exists fresh,
      refreshAccessToken C t = inr (Some fresh) /\ fresh <> EmptyString) ->
  forall fuel token t,
    fetchWithToken C path options useAuthHeader fuel token t = None.
Proof.
  intros Hclient Hserver Hrefresh fuel.
  induction fuel as [|fuel IH]; intros token t; [reflexivity|].
  cbn [fetchWithToken].
  destruct (Hserver t (request_for C path options useAuthHeader token))
    as (resp & -> & ->).
  rewrite Hclient. cbn [Z.eqb Pos.eqb].
  destruct (Hrefresh (t ++ [EvRequest (request_for C path options useAuthHeader token)]))
    as (fresh & -> & Hfresh).
  cbn [truthy_token]. rewrite (proj2 (String.eqb_neq _ _) Hfresh). cbn [negb].
  rewrite IH. reflexivity.
Qed.

(** X24. [useMyFetch] has no limit on its retries: in the browser, with
    a stored token that can be read, a server that answers 401 to
    everything and a refresh that always yields a token, the call never
    finishes, whatever the number of steps it is given. *)
Theorem useMyFetch_has_no_retry_limit C path options useAuthHeader :
  process_client C = true ->
  (forall t, exists token, Preferences_get C t "access_token" = inr token) ->
  (forall t r, exists resp, fetch C t r = inr resp /\ resp_status resp = 401) ->
  (forall t, exists fresh,
      refreshAccessToken C t = inr (Some fresh) /\ fresh <> EmptyString) ->
  forall fuel t, useMyFetch C path options useAuthHeader fuel t = None.
Proof.
  intros Hclient Hstored Hserver Hrefresh fuel t.
  rewrite useMyFetch_unfold. unfold token_read. rewrite Hclient.
  destruct (Hstored t) as [token ->].
  rewrite (fetchWithToken_never_gives_up C path options useAuthHeader
             Hclient Hserver Hrefresh). reflexivity.
Qed.

Lemma useMyFetch_has_no_retry_limit_witness :
  useMyFetch (demo_browser locked_server fresh_refresh) "/books" demo_options true
    1000 []
  = None.
Proof.
  apply (useMyFetch_has_no_retry_limit (demo_browser locked_server fresh_refresh)
           "/books" demo_options true eq_refl).
  - intros t. eexists. reflexivity.
  - intros t r. exists unauthorized. split; reflexivity.
  - intros t. exists "fresh-token". split; [reflexivity|discriminate].
Defined.
